(** * devto_top_month_rss: a shallow embedding of the feed pipeline

    The development follows [devto_top_month_rss.py]: the HTTP fetcher
    [fetch_json], the content extractor [extract_paragraphs], the feed
    renderer [build_rss] and the refresh cycle [refresh] with its state
    file.  Python values decoded from JSON are the type [pyval]; effects
    (network, random numbers, the clock, sleeping, the file system and
    standard output) are threaded through an explicit [world] by a small
    state-and-exception monad.  The libraries the program calls (the HTML
    parser, the date functions, the JSON decoder) and the answers of the
    outside world are the fields of the class [platform].

    A [string] is a sequence of characters with code points below 256,
    which is exactly what an HTTP header value is once [requests] has
    decoded it; the characters beyond, which the text of an article may
    hold, are outside the model. *)

From Stdlib Require Import ZArith QArith Qround Lqa Ascii String List Lia.
From stdpp Require Import base strings gmap list pretty.

#[local] Set Warnings "-clear-no-such-hyp".

Local Open Scope string_scope.
Local Open Scope list_scope.
Local Open Scope Z_scope.

(** ** Python values *)

(** What [json.load] and [response.json()] hand to the program.  Numbers
    are integers; floating point values are outside the model. *)
#[warnings="-register-all"]
Inductive pyval :=
  | PNone
  | PBool (b : bool)
  | PInt (z : Z)
  | PStr (s : string)
  | PList (l : list pyval)
  | PDict (d : gmap string pyval).

(** Truth value testing ([if x:], [x and y], [x or y], [not x]). *)
Definition truthy (v : pyval) : bool :=
  match v with
  | PNone => false
  | PBool b => b
  | PInt z => negb (z =? 0)
  | PStr s => negb (String.eqb s "")
  | PList l => match l with [] => false | _ => true end
  | PDict d => negb (bool_decide (d = ∅))
  end.

(** [a or b] *)
Definition py_or (a b : pyval) : pyval := if truthy a then a else b.

Inductive exn :=
  | HTTPError (status : Z)
  | ConnectionError
  | JSONDecodeError
  | ValueError
  | RuntimeError (msg : string)
  | KeyError (key : string)
  | TypeError
  | AttributeError
  | FileNotFoundError.

(** ** Text helpers: [str.strip], [str.join], [str.replace], [html.escape] *)

Module Text.

(** [str.isspace] on the characters a [string] can hold (code points
    below 256): tab to carriage return, the four separators 28..31,
    space, NEL and the no-break space. *)
Definition isspace (c : ascii) : bool :=
  let n := nat_of_ascii c in
  ((9 <=? n) && (n <=? 13) || (28 <=? n) && (n <=? 32)
   || (n =? 133) || (n =? 160))%nat.

Fixpoint lstrip (s : string) : string :=
  match s with
  | String c t => if isspace c then lstrip t else s
  | EmptyString => EmptyString
  end.

Fixpoint rstrip (s : string) : string :=
  match s with
  | EmptyString => EmptyString
  | String c t =>
      match rstrip t with
      | EmptyString => if isspace c then EmptyString else String c EmptyString
      | t' => String c t'
      end
  end.

Definition strip (s : string) : string := rstrip (lstrip s).

Definition nonempty (s : string) : bool := negb (String.eqb s "").

Fixpoint all_chars (p : ascii -> bool) (s : string) : bool :=
  match s with
  | EmptyString => true
  | String c t => p c && all_chars p t
  end.

(** The characters with a meaning in XML character data. *)
Definition is_markup (c : ascii) : bool :=
  Ascii.eqb c "<" || Ascii.eqb c ">" || Ascii.eqb c "&".

(** A string without any markup character. *)
Definition plain (s : string) : bool :=
  all_chars (fun c => negb (is_markup c)) s.

(** [s.startswith(p)] *)
Fixpoint starts_with (p s : string) : bool :=
  match p with
  | EmptyString => true
  | String a p' =>
      match s with
      | String b s' => Ascii.eqb a b && starts_with p' s'
      | EmptyString => false
      end
  end.

(** [sep.join(parts)] *)
Definition join (sep : string) (parts : list string) : string :=
  String.concat sep parts.

(** [s.replace(c, by)] for a one-character pattern. *)
Fixpoint replace_char (c : ascii) (by_ : string) (s : string) : string :=
  match s with
  | EmptyString => EmptyString
  | String x t =>
      if Ascii.eqb x c then by_ +:+ replace_char c by_ t
      else String x (replace_char c by_ t)
  end.

(** [html.escape(s)] with its default [quote=True]. *)
Definition escape_char (c : ascii) : string :=
  if Ascii.eqb c "&" then "&amp;"
  else if Ascii.eqb c "<" then "&lt;"
  else if Ascii.eqb c ">" then "&gt;"
  else if Ascii.eqb c "034" then "&quot;"
  else if Ascii.eqb c "'" then "&#x27;"
  else String c EmptyString.

Fixpoint escape (s : string) : string :=
  match s with
  | EmptyString => EmptyString
  | String c t => escape_char c +:+ escape t
  end.

End Text.

(** ** The parsed document *)

(** The tree [BeautifulSoup(body_html, "html.parser")] builds: text
    strings and tags with their children.  Comments and other special
    strings, which [stripped_strings] skips, are left out. *)
#[warnings="-register-all"]
Inductive node :=
  | Text (s : string)
  | Elem (name : string) (children : list node).

Module Soup.

(** All strings below a node, in document order. *)
Fixpoint strings (n : node) : list string :=
  match n with
  | Text s => [s]
  | Elem _ cs => flat_map strings cs
  end.

(** [node.stripped_strings]: every string stripped, empty ones dropped. *)
Definition stripped_strings (n : node) : list string :=
  List.filter Text.nonempty (map Text.strip (strings n)).

(** The tags below (and including) a node whose name is one of [names],
    in document order. *)
Fixpoint find_all_in (names : list string) (n : node) : list node :=
  match n with
  | Text _ => []
  | Elem name cs =>
      (if bool_decide (name ∈ names) then [n] else [])
        ++ flat_map (find_all_in names) cs
  end.

(** [soup.find_all(names)] on the children of the document root. *)
Definition find_all (names : list string) (soup : list node) : list node :=
  flat_map (find_all_in names) soup.


End Soup.

(** ** The platform: libraries and the outside world *)

(** A response of [session.get]: its status, its headers (under the
    spelling the program asks for them) and what [response.json()]
    decodes ([None] when the body is not JSON). *)
Record response := {
  status_code : Z;
  headers : gmap string string;
  json : option pyval }.

(** The library functions the program calls and the answers of the outside
    world, indexed by how many were asked for before. *)
Class platform := {
  datetime : Type;
  (** [BeautifulSoup(markup, "html.parser")] *)
  BeautifulSoup : string -> list node;
  (** [datetime.fromisoformat]; [None] stands for its [ValueError] *)
  fromisoformat : string -> option datetime;
  (** [email.utils.format_datetime] *)
  format_datetime : datetime -> string;
  (** [datetime.isoformat] *)
  isoformat : datetime -> string;
  (** [json.load] on a text; [None] stands for [JSONDecodeError] *)
  json_load : string -> option pyval;
  (** how [str.format] renders a value *)
  format_value : pyval -> string;
  (** the outcome of the n-th [session.get], for the URL asked *)
  session_get : nat -> string -> exn + response;
  (** the n-th value of [random.uniform(0, 1)] *)
  random_uniform01 : nat -> Q;
  (** the n-th reading of [datetime.now(timezone.utc)] *)
  datetime_now : nat -> datetime;
  (** an empty document is not JSON *)
  json_load_empty : json_load "" = None;
  (** an RFC 2822 date is not empty and has no markup character *)
  format_datetime_nonempty : forall d, format_datetime d <> "";
  format_datetime_plain : forall d, Text.plain (format_datetime d) = true }.

(** ** Content extractor *)

Section Extractor.
Context `{platform}.

Definition CANDIDATES : list string := ["p"; "blockquote"; "li"].
Definition UNAVAILABLE : string := "Top DEV.to article snippet unavailable.".
Definition TRUNCATED : string := "Read the rest of the article at the source.".

(** [" ".join(node.stripped_strings)] *)
Definition node_text (n : node) : string :=
  Text.join " " (Soup.stripped_strings n).

(** The [for] loop of [extract_paragraphs]: nodes with an empty text are
    skipped, and the loop is left once 20 paragraphs are held. *)
Fixpoint collect_paragraphs (nodes : list node) (paragraphs : list pyval)
  : list pyval :=
  match nodes with
  | [] => paragraphs
  | n :: rest =>
      let text := node_text n in
      if negb (Text.nonempty text) then collect_paragraphs rest paragraphs
      else
        let paragraphs := paragraphs ++ [PStr text] in
        if (20 <=? length paragraphs)%nat then paragraphs
        else collect_paragraphs rest paragraphs
  end.

Definition extract_paragraphs (body_html : string) (fallback_text : pyval)
  : list pyval :=
  let soup := BeautifulSoup body_html in
  let paragraphs := collect_paragraphs (Soup.find_all CANDIDATES soup) [] in
  let paragraphs :=
    if (length paragraphs <? 2)%nat && truthy fallback_text
    then paragraphs ++ [fallback_text] else paragraphs in
  let paragraphs :=
    if (length paragraphs <? 2)%nat
    then paragraphs ++ [PStr UNAVAILABLE] else paragraphs in
  let total_paragraphs :=
    length (List.filter (fun n => Text.nonempty (node_text n))
                        (Soup.find_all CANDIDATES soup)) in
  let paragraphs :=
    if (20 <? total_paragraphs)%nat && (20 <=? length paragraphs)%nat
    then paragraphs ++ [PStr TRUNCATED] else paragraphs in
  take 21 paragraphs.

(** The collapsed, non-empty texts of the paragraph, blockquote and
    list-item nodes of a body, in document order. *)
Definition candidate_texts (body_html : string) : list string :=
  List.filter Text.nonempty
    (map node_text (Soup.find_all CANDIDATES (BeautifulSoup body_html))).

End Extractor.

(** ** Effects *)

(** What a file holds: a text, or the document [json.dump] wrote for a
    value with the given [indent] and [sort_keys], which [json.load] reads
    back as that value. *)
Inductive file :=
  | TextFile (text : string)
  | JsonFile (indent : option nat) (sort_keys : bool) (value : pyval).

(** The mutable surroundings of a run: how many requests, random numbers
    and clock readings were consumed, the sleeps taken, the files on disk
    and what was printed. *)
Record world := {
  requests : nat;
  draws : nat;
  ticks : nat;
  slept : list Q;
  fs : gmap string file;
  stdout : list string }.

(** A computation either raises or returns, and leaves a world behind in
    both cases. *)
Definition M (A : Type) : Type := world -> (exn + A) * world.

#[global] Instance M_ret : MRet M := fun A (x : A) w => (inr x, w).

#[global] Instance M_bind : MBind M := fun A B (f : A -> M B) (m : M A) w =>
  match m w with
  | (inl e, w') => (inl e, w')
  | (inr a, w') => f a w'
  end.

Definition raise {A} (e : exn) : M A := fun w => (inl e, w).

(** Lifting of a pure computation that may raise. *)
Definition lift {A} (r : exn + A) : M A := fun w => (r, w).

(** [try: body / except FileNotFoundError: handler] *)
Definition try_except_FileNotFoundError {A} (body handler : M A) : M A :=
  fun w =>
    match body w with
    | (inl FileNotFoundError, w') => handler w'
    | r => r
    end.

Definition print (line : string) : M unit := fun w =>
  (inr tt, {| requests := requests w; draws := draws w; ticks := ticks w;
              slept := slept w; fs := fs w; stdout := stdout w ++ [line] |}).

(** [time.sleep(seconds)] *)
Definition sleep (seconds : Q) : M unit := fun w =>
  (inr tt, {| requests := requests w; draws := draws w; ticks := ticks w;
              slept := slept w ++ [seconds]; fs := fs w; stdout := stdout w |}).

(** [open(path, "r")] *)
Definition open_read (path : string) : M file := fun w =>
  match fs w !! path with
  | Some f => (inr f, w)
  | None => (inl FileNotFoundError, w)
  end.

(** [open(path, "w")] followed by the writes that leave [f] in the file. *)
Definition write_file (path : string) (f : file) : M unit := fun w =>
  (inr tt, {| requests := requests w; draws := draws w; ticks := ticks w;
              slept := slept w; fs := <[path := f]> (fs w);
              stdout := stdout w |}).

(** Monadic map over a list, left to right. *)
Fixpoint mapM {A B} (f : A -> M B) (l : list A) : M (list B) :=
  match l with
  | [] => mret []
  | x :: l' => y ← f x; ys ← mapM f l'; mret (y :: ys)
  end.

Section Effects.
Context `{platform}.

Definition http_get (url : string) : M response := fun w =>
  (session_get (requests w) url,
   {| requests := S (requests w); draws := draws w; ticks := ticks w;
      slept := slept w; fs := fs w; stdout := stdout w |}).

(** [random.uniform(0, 1)] *)
Definition uniform01 : M Q := fun w =>
  (inr (random_uniform01 (draws w)),
   {| requests := requests w; draws := S (draws w); ticks := ticks w;
      slept := slept w; fs := fs w; stdout := stdout w |}).

(** [dt.datetime.now(dt.timezone.utc)] *)
Definition now : M datetime := fun w =>
  (inr (datetime_now (ticks w)),
   {| requests := requests w; draws := draws w; ticks := S (ticks w);
      slept := slept w; fs := fs w; stdout := stdout w |}).

End Effects.

(** ** Operations on Python values *)

(** [d.get(key, fallback)]; only dictionaries have the method. *)
Definition dict_get (d : pyval) (key : string) (fallback : pyval) : exn + pyval :=
  match d with
  | PDict m => inr (default fallback (m !! key))
  | _ => inl AttributeError
  end.

(** [d[key]]: a missing key is a [KeyError]; lists and strings want an
    integer index, the other values are not subscriptable. *)
Definition getitem (d : pyval) (key : string) : exn + pyval :=
  match d with
  | PDict m => match m !! key with Some v => inr v | None => inl (KeyError key) end
  | _ => inl TypeError
  end.

(** [d[key] = value] *)
Definition setitem (d : pyval) (key : string) (value : pyval) : exn + pyval :=
  match d with
  | PDict m => inr (PDict (<[key := value]> m))
  | _ => inl TypeError
  end.

(** [l[:stop]] on a list. *)
Definition slice_to {A} (l : list A) (stop : Z) : list A :=
  if 0 <=? stop then take (Z.to_nat stop) l
  else take (length l - Z.to_nat (- stop)) l.

Fixpoint chars (s : string) : list string :=
  match s with
  | EmptyString => []
  | String c t => String c EmptyString :: chars t
  end.

(** What iterating over [v[:stop]] visits: the elements of a list, the
    characters of a string; the other values cannot be sliced. *)
Definition sliced_items (v : pyval) (stop : Z) : exn + list pyval :=
  match v with
  | PList l => inr (slice_to l stop)
  | PStr s => inr (PStr <$> slice_to (chars s) stop)
  | _ => inl TypeError
  end.

(** *** Hashing *)

(** The keys of a [set]: values that compare equal share a key, so
    [True] and [1] do. *)
Inductive hkey :=
  | HNone
  | HInt (z : Z)
  | HStr (s : string).

#[global] Instance hkey_eq_dec : EqDecision hkey.
Proof. solve_decision. Defined.

#[global] Instance hkey_countable : Countable hkey.
Proof.
  refine (inj_countable'
    (fun k => match k with
              | HNone => inl ()
              | HInt z => inr (inl z)
              | HStr s => inr (inr s)
              end)
    (fun x => match x with
              | inl _ => HNone
              | inr (inl z) => HInt z
              | inr (inr s) => HStr s
              end) _).
  intros []; reflexivity.
Defined.

(** [hash(v)]: lists and dictionaries are unhashable. *)
Definition hash_key (v : pyval) : exn + hkey :=
  match v with
  | PNone => inr HNone
  | PBool b => inr (HInt (if b then 1 else 0))
  | PInt z => inr (HInt z)
  | PStr s => inr (HStr s)
  | PList _ | PDict _ => inl TypeError
  end.

Fixpoint hash_keys (l : list pyval) : exn + list hkey :=
  match l with
  | [] => inr []
  | v :: l' =>
      match hash_key v with
      | inl e => inl e
      | inr k =>
          match hash_keys l' with
          | inl e => inl e
          | inr ks => inr (k :: ks)
          end
      end
  end.

(** [set(v)]: the elements of a list, the characters of a string or the
    keys of a dictionary; the other values are not iterable. *)
Definition py_set (v : pyval) : exn + gset hkey :=
  match v with
  | PList l =>
      match hash_keys l with
      | inl e => inl e
      | inr ks => inr (list_to_set ks)
      end
  | PStr s => inr (list_to_set (HStr <$> chars s))
  | PDict m => inr (set_map HStr (dom m))
  | _ => inl TypeError
  end.

(** [v not in s] for a set [s] *)
Definition not_in_set (s : gset hkey) (v : pyval) : exn + bool :=
  match hash_key v with
  | inl e => inl e
  | inr k => inr (negb (bool_decide (k ∈ s)))
  end.

(** [[x for x in l if x not in s]] *)
Fixpoint filter_not_in (s : gset hkey) (l : list pyval) : exn + list pyval :=
  match l with
  | [] => inr []
  | v :: l' =>
      match not_in_set s v with
      | inl e => inl e
      | inr keep =>
          match filter_not_in s l' with
          | inl e => inl e
          | inr vs => inr (if keep then v :: vs else vs)
          end
      end
  end.

(** *** Digits *)

(** [str.isdigit] on code points below 256: besides the decimal digits it
    accepts the superscripts two, three and one (178, 179, 185). *)
Definition isdigit_char (c : ascii) : bool :=
  let n := nat_of_ascii c in
  ((48 <=? n) && (n <=? 57) || (n =? 178) || (n =? 179) || (n =? 185))%nat.

Definition isdecimal_char (c : ascii) : bool :=
  let n := nat_of_ascii c in ((48 <=? n) && (n <=? 57))%nat.

(** [s.isdigit()]: false on the empty string. *)
Definition isdigit (s : string) : bool :=
  Text.nonempty s && Text.all_chars isdigit_char s.

Fixpoint decimal_value (acc : Z) (s : string) : Z :=
  match s with
  | EmptyString => acc
  | String c t => decimal_value (10 * acc + (Z.of_nat (nat_of_ascii c) - 48)) t
  end.

(** [int(s)] for a string without sign, blanks or underscores, as the
    ones that pass [isdigit] are: only decimal digits convert.  The bound
    recent interpreters put on the number of digits is left out. *)
Definition py_int (s : string) : exn + Z :=
  if Text.nonempty s && Text.all_chars isdecimal_char s
  then inr (decimal_value 0 s) else inl ValueError.

(** ** HTTP fetcher *)

Section Fetcher.
Context `{platform}.

(** [response.raise_for_status()] *)
Definition raise_for_status (r : response) : M unit :=
  if (400 <=? status_code r) && (status_code r <? 600)
  then raise (HTTPError (status_code r)) else mret tt.

(** [response.json()] *)
Definition response_json (r : response) : M pyval :=
  match json r with
  | Some v => mret v
  | None => raise JSONDecodeError
  end.

(** The delay chosen after a 429 on the given attempt. *)
Definition retry_delay (r : response) (attempt : nat) : exn + Z :=
  match headers r !! "Retry-After" with
  | Some retry_after =>
      if Text.nonempty retry_after && isdigit retry_after
      then py_int retry_after
      else inr (2 ^ Z.of_nat attempt)
  | None => inr (2 ^ Z.of_nat attempt)
  end.

(** The [for attempt in range(retries + 1)] loop with [remaining]
    iterations left, followed by the code after the loop. *)
Fixpoint fetch_json_loop (url : string) (remaining attempt : nat)
    (last_response : option response) : M pyval :=
  match remaining with
  | O =>
      match last_response with
      | Some r =>
          raise_for_status r;;
          raise (RuntimeError "Request failed without a response.")
      | None => raise (RuntimeError "Request failed without a response.")
      end
  | S remaining' =>
      response ← http_get url;
      if negb (status_code response =? 429) then
        raise_for_status response;;
        response_json response
      else
        delay ← lift (retry_delay response attempt);
        jitter ← uniform01;
        sleep (inject_Z delay + jitter)%Q;;
        fetch_json_loop url remaining' (S attempt) (Some response)
  end.

Definition fetch_json (url : string) (retries : nat) : M pyval :=
  fetch_json_loop url (retries + 1) 0 None.

End Fetcher.

(** The default of the [retries] parameter. *)
Definition RETRIES : nat := 3.

(** ** Feed renderer *)

Definition FEED_TITLE : string := "DEV.to Top Posts This Month".
Definition FEED_LINK : string := "https://dev.to/top/month".
Definition FEED_DESCRIPTION : string := "Top DEV.to posts from the last 30 days.".

(** The dictionaries [collect_items] builds, one per article. *)
Record item := {
  item_id : pyval;
  item_title : pyval;
  item_link : pyval;
  item_pub_date : string;
  item_content : string }.

Definition is_PStr (v : pyval) : Prop :=
  match v with PStr _ => True | _ => False end.

(** [html.escape(v)]: the argument has to be a string. *)
Definition html_escape (v : pyval) : exn + string :=
  match v with
  | PStr s => inr (Text.escape s)
  | _ => inl AttributeError
  end.

(** ["".join(f"<p>{html.escape(text)}</p>" for text in paragraphs)] *)
Fixpoint paragraphs_to_html (paragraphs : list pyval) : exn + string :=
  match paragraphs with
  | [] => inr ""
  | text :: rest =>
      match html_escape text with
      | inl e => inl e
      | inr escaped =>
          match paragraphs_to_html rest with
          | inl e => inl e
          | inr html => inr ("<p>" +:+ escaped +:+ "</p>" +:+ html)
          end
      end
  end.

(** The double quote character. *)
Definition dq : string := String "034" EmptyString.

(** The lines of the document before the first item. *)
Definition channel_head (now : string) : list string :=
  [ "<?xml version=" +:+ dq +:+ "1.0" +:+ dq +:+ " encoding=" +:+ dq
      +:+ "UTF-8" +:+ dq +:+ "?>";
    "<rss version=" +:+ dq +:+ "2.0" +:+ dq +:+ " xmlns:content=" +:+ dq
      +:+ "http://purl.org/rss/1.0/modules/content/" +:+ dq +:+ ">";
    "  <channel>";
    "    <title>" +:+ Text.escape FEED_TITLE +:+ "</title>";
    "    <link>" +:+ Text.escape FEED_LINK +:+ "</link>";
    "    <description>" +:+ Text.escape FEED_DESCRIPTION +:+ "</description>";
    "    <lastBuildDate>" +:+ now +:+ "</lastBuildDate>" ].

(** The eight lines one pass of the [for item in items] loop appends. *)
Definition item_parts (it : item) : exn + list string :=
  match html_escape (item_title it) with
  | inl e => inl e
  | inr title =>
      match html_escape (item_link it) with
      | inl e => inl e
      | inr link =>
          inr [ "    <item>";
                "      <title>" +:+ title +:+ "</title>";
                "      <link>" +:+ link +:+ "</link>";
                "      <guid isPermaLink=" +:+ dq +:+ "true" +:+ dq +:+ ">"
                  +:+ link +:+ "</guid>";
                "      <pubDate>" +:+ item_pub_date it +:+ "</pubDate>";
                "      <description><![CDATA[" +:+ item_content it
                  +:+ "]]></description>";
                "      <content:encoded><![CDATA[" +:+ item_content it
                  +:+ "]]></content:encoded>";
                "    </item>" ]
      end
  end.

Fixpoint items_parts (items : list item) : exn + list string :=
  match items with
  | [] => inr []
  | it :: rest =>
      match item_parts it with
      | inl e => inl e
      | inr parts =>
          match items_parts rest with
          | inl e => inl e
          | inr more => inr (parts ++ more)
          end
      end
  end.

Definition channel_tail : list string := [ "  </channel>"; "</rss>" ].

(** Line feed. *)
Definition LF : string := String "010" EmptyString.

Section Renderer.
Context `{platform}.

Definition build_rss (items : list item) : M string :=
  t ← now;
  parts ← lift (items_parts items);
  mret (Text.join LF (channel_head (format_datetime t) ++ parts ++ channel_tail)).

Definition write_feed (output_path : string) (items : list item) : M unit :=
  rss ← build_rss items;
  write_file output_path (TextFile rss).

End Renderer.

(** ** State file *)

Section State.
Context `{platform}.

(** [json.load(handle)] *)
Definition load_json (handle : file) : M pyval :=
  match handle with
  | JsonFile _ _ v => mret v
  | TextFile text =>
      match json_load text with
      | Some v => mret v
      | None => raise JSONDecodeError
      end
  end.

Definition load_state (path : string) : M pyval :=
  try_except_FileNotFoundError
    (handle ← open_read path; load_json handle)
    (mret (PDict ∅)).

Definition save_state (path : string) (state : pyval) : M unit :=
  write_file path (JsonFile (Some 2%nat) true state).

End State.

(** ** Refresh orchestrator *)

Section Orchestrator.
Context `{platform}.

(** [TOP_URL_TEMPLATE.format(top_days=top_days, limit=limit)] *)
Definition TOP_URL_TEMPLATE (top_days limit : Z) : string :=
  "https://dev.to/api/articles?top=" +:+ pretty top_days
    +:+ "&per_page=" +:+ pretty limit.

(** [ARTICLE_URL_TEMPLATE.format(article_id=article_id)] *)
Definition ARTICLE_URL_TEMPLATE (article_id : pyval) : string :=
  "https://dev.to/api/articles/" +:+ format_value article_id.

(** [extract_paragraphs] as [collect_items] calls it, on whatever the
    detail record holds: the parser takes text only. *)
Definition extract_from (body_html fallback_text : pyval) : exn + list pyval :=
  match body_html with
  | PStr body => inr (extract_paragraphs body fallback_text)
  | _ => inl TypeError
  end.

(** The publication date of an item: the article's own time stamp when
    it has one, the current time otherwise. *)
Definition pub_date_of (published : pyval) : M string :=
  if truthy published then
    match published with
    | PStr p =>
        match fromisoformat (Text.replace_char "Z" "+00:00" p) with
        | Some published_dt => mret (format_datetime published_dt)
        | None => raise ValueError
        end
    | _ => raise AttributeError
    end
  else
    t ← now;
    mret (format_datetime t).

(** One pass of the [for article in top_articles[:limit]] loop. *)
Definition collect_item (article : pyval) : M item :=
  article_id ← lift (getitem article "id");
  detail ← fetch_json (ARTICLE_URL_TEMPLATE article_id) RETRIES;
  body_html ← lift (dict_get detail "body_html" (PStr ""));
  description ← lift (dict_get article "description" PNone);
  paragraphs ← lift (extract_from body_html description);
  content_html ← lift (paragraphs_to_html paragraphs);
  published_at ← lift (dict_get detail "published_at" PNone);
  created_at ← lift (dict_get detail "created_at" PNone);
  pub_date ← pub_date_of (py_or published_at created_at);
  summary_title ← lift (dict_get article "title" (PStr "Untitled"));
  title ← lift (dict_get detail "title" summary_title);
  summary_url ← lift (dict_get article "url" PNone);
  link ← lift (dict_get detail "url" summary_url);
  mret {| item_id := article_id; item_title := title; item_link := link;
          item_pub_date := pub_date; item_content := content_html |}.

Definition collect_items (limit top_days : Z) : M (list item) :=
  top_articles ← fetch_json (TOP_URL_TEMPLATE top_days limit) RETRIES;
  if negb (truthy top_articles) then
    raise (RuntimeError "No articles returned from the DEV.to API.")
  else
    articles ← lift (sliced_items top_articles limit);
    mapM collect_item articles.

(** The part of [refresh] that reads the state file, finds the new
    identifiers and writes the state back; it returns [new_ids]. *)
Definition update_state (state_file : string) (items : list item)
  : M (list pyval) :=
  state ← load_state state_file;
  latest_ids ← lift (dict_get state "latest_ids" (PList []));
  previous_ids ← lift (py_set latest_ids);
  let current_ids := item_id <$> items in
  new_ids ← lift (filter_not_in previous_ids current_ids);
  state ← lift (setitem state "latest_ids" (PList current_ids));
  t ← now;
  state ← lift (setitem state "updated_at" (PStr (isoformat t)));
  save_state state_file state;;
  mret new_ids.

(** The closure [refresh] of [main], with the command line arguments it
    reads as parameters. *)
Definition refresh (limit top_days : Z) (output state_file : string) : M nat :=
  items ← collect_items limit top_days;
  write_feed output items;;
  new_ids ← update_state state_file items;
  (if negb (bool_decide (new_ids = []))
   then print ("Found " +:+ pretty (length new_ids) +:+ " new articles. Feed updated.")
   else print "No new articles. Feed refreshed.");;
  mret (length items).

End Orchestrator.

(** ** Reading the feed as XML character data *)

Module Xml.

(** The state of a reader of character data: outside a CDATA section,
    having matched the first [matched] characters of its opening
    delimiter, or inside one, having just read [brackets] closing
    brackets (counted up to two). *)
Inductive lexer :=
  | Data (matched : nat)
  | CData (brackets : nat).

Definition CDATA_OPEN : string := "<![CDATA[".

Definition step (st : lexer) (c : ascii) : lexer :=
  match st with
  | Data k =>
      if bool_decide (String.get k CDATA_OPEN = Some c)
      then (if (k =? 8)%nat then CData 0 else Data (S k))
      else if Ascii.eqb c "<" then Data 1 else Data 0
  | CData j =>
      if Ascii.eqb c "]" then CData (Nat.min 2 (S j))
      else if Ascii.eqb c ">" && (2 <=? j)%nat then Data 0
      else CData 0
  end.

Fixpoint run (st : lexer) (s : string) : lexer :=
  match s with
  | EmptyString => st
  | String c t => run (step st c) t
  end.

(** The characters read outside CDATA sections; the opening delimiter is
    kept, the section and its closing delimiter are dropped. *)
Fixpoint outside (st : lexer) (s : string) : string :=
  match s with
  | EmptyString => EmptyString
  | String c t =>
      match st with
      | Data _ => String c (outside (step st c) t)
      | CData _ => outside (step st c) t
      end
  end.

(** The entity references [html.escape] produces, without the ampersand. *)
Definition ENTITIES : list string := ["amp;"; "lt;"; "gt;"; "quot;"; "#x27;"].

Definition starts_entity (s : string) : bool :=
  existsb (fun e => Text.starts_with e s) ENTITIES.

(** The markup characters of a text that are not the ampersand of an
    entity reference. *)
Fixpoint raw_markup (s : string) : string :=
  match s with
  | EmptyString => EmptyString
  | String c t =>
      if Ascii.eqb c "&" then
        (if starts_entity t then raw_markup t else String c (raw_markup t))
      else if Ascii.eqb c "<" || Ascii.eqb c ">" then String c (raw_markup t)
      else raw_markup t
  end.

(** The raw markup of a document outside its CDATA sections. *)
Definition markup (doc : string) : string := raw_markup (outside (Data 0) doc).

(** Whether the text contains the closing delimiter of a CDATA section. *)
Fixpoint has_cdata_end (s : string) : bool :=
  match s with
  | EmptyString => false
  | String _ t => Text.starts_with "]]>" s || has_cdata_end t
  end.

(** The pieces a rendered document is made of: text of the template, an
    escaped string, a string without markup, a CDATA section. *)
Inductive chunk :=
  | Lit (s : string)
  | Esc (s : string)
  | Plain (s : string)
  | Section_ (s : string).

Definition render (c : chunk) : string :=
  match c with
  | Lit s => s
  | Esc s => Text.escape s
  | Plain s => s
  | Section_ s => CDATA_OPEN +:+ s +:+ "]]>"
  end.

Definition skeleton (c : chunk) : string :=
  match c with
  | Lit s => raw_markup s
  | Esc _ | Plain _ => ""
  | Section_ _ => "<"
  end.

Definition no_amp (s : string) : bool :=
  Text.all_chars (fun c => negb (Ascii.eqb c "&")) s.

Definition no_lt (s : string) : bool :=
  Text.all_chars (fun c => negb (Ascii.eqb c "<")) s.

(** Outside any section and any delimiter. *)
Definition at_rest (st : lexer) : bool :=
  match st with Data 0 => true | _ => false end.

Definition well_formed (c : chunk) : bool :=
  match c with
  | Lit s =>
      no_amp s && at_rest (run (Data 0) s)
        && String.eqb (outside (Data 0) s) s
  | Esc _ => true
  | Plain s => Text.plain s
  | Section_ s => negb (has_cdata_end s)
  end.

Fixpoint render_all (cs : list chunk) : string :=
  match cs with
  | [] => ""
  | c :: cs' => render c +:+ render_all cs'
  end.

Fixpoint skeleton_all (cs : list chunk) : string :=
  match cs with
  | [] => ""
  | c :: cs' => skeleton c +:+ skeleton_all cs'
  end.

(** Whether every [>] of [s] comes right after a [p], [prev] being the
    character before [s]. *)
Fixpoint gt_after_p (prev : ascii) (s : string) : bool :=
  match s with
  | EmptyString => true
  | String c t =>
      (if Ascii.eqb c ">" then Ascii.eqb prev "p" else true) && gt_after_p c t
  end.

(** The closing brackets a reader inside a section remembers. *)
Definition brackets (j : nat) : string :=
  match j with
  | 0%nat => ""
  | 1%nat => "]"
  | _ => "]]"
  end.

End Xml.

(** [lines] each followed by a line feed, and then [rest]. *)
Definition lines_then (lines : list string) (rest : string) : string :=
  fold_right (fun line acc => line +:+ LF +:+ acc) rest lines.

(** The string a value is, when it is one. *)
Definition str (v : pyval) : string :=
  match v with PStr s => s | _ => "" end.

(** The document cut into chunks. *)
Definition head_chunks (now : string) : list Xml.chunk :=
  [ Xml.Lit (lines_then
       [ "<?xml version=" +:+ dq +:+ "1.0" +:+ dq +:+ " encoding=" +:+ dq
           +:+ "UTF-8" +:+ dq +:+ "?>";
         "<rss version=" +:+ dq +:+ "2.0" +:+ dq +:+ " xmlns:content=" +:+ dq
           +:+ "http://purl.org/rss/1.0/modules/content/" +:+ dq +:+ ">";
         "  <channel>" ] "    <title>");
    Xml.Esc FEED_TITLE;
    Xml.Lit ("</title>" +:+ LF +:+ "    <link>");
    Xml.Esc FEED_LINK;
    Xml.Lit ("</link>" +:+ LF +:+ "    <description>");
    Xml.Esc FEED_DESCRIPTION;
    Xml.Lit ("</description>" +:+ LF +:+ "    <lastBuildDate>");
    Xml.Plain now;
    Xml.Lit ("</lastBuildDate>" +:+ LF) ].

Definition item_chunks (it : item) : list Xml.chunk :=
  [ Xml.Lit ("    <item>" +:+ LF +:+ "      <title>");
    Xml.Esc (str (item_title it));
    Xml.Lit ("</title>" +:+ LF +:+ "      <link>");
    Xml.Esc (str (item_link it));
    Xml.Lit ("</link>" +:+ LF +:+ "      <guid isPermaLink=" +:+ dq +:+ "true"
               +:+ dq +:+ ">");
    Xml.Esc (str (item_link it));
    Xml.Lit ("</guid>" +:+ LF +:+ "      <pubDate>");
    Xml.Plain (item_pub_date it);
    Xml.Lit ("</pubDate>" +:+ LF +:+ "      <description>");
    Xml.Section_ (item_content it);
    Xml.Lit ("</description>" +:+ LF +:+ "      <content:encoded>");
    Xml.Section_ (item_content it);
    Xml.Lit ("</content:encoded>" +:+ LF +:+ "    </item>" +:+ LF) ].

Definition tail_chunks : list Xml.chunk :=
  [ Xml.Lit ("  </channel>" +:+ LF +:+ "</rss>") ].

Definition document_chunks (now : string) (items : list item) : list Xml.chunk :=
  head_chunks now ++ concat (item_chunks <$> items) ++ tail_chunks.

(** An item with the same identifier and empty fields. *)
Definition blank (it : item) : item :=
  {| item_id := item_id it; item_title := PStr ""; item_link := PStr "";
     item_pub_date := ""; item_content := "" |}.

(** ** A sample platform *)

(** A small concrete platform on which the definitions can be run: time
    stands still, and the parser knows one document. *)
Definition sample_body : string := "<p>a</p><li> b </li><div>c</div>".

(** Twenty-five paragraphs. *)
Definition sample_long_body : string :=
  Text.join "" (replicate 25 "<p>x</p>").

Definition sample_soup (markup : string) : list node :=
  if String.eqb markup "" then []
  else if String.eqb markup sample_body
  then [Elem "p" [Text "a"]; Elem "li" [Text " b "]; Elem "div" [Text "c"]]
  else if String.eqb markup sample_long_body
  then replicate 25 (Elem "p" [Text "x"])
  else [Text markup].

Definition sample_format_value (v : pyval) : string :=
  match v with
  | PInt z => pretty z
  | PStr s => s
  | _ => "?"
  end.

Definition sample_json_load (text : string) : option pyval :=
  if String.eqb text "{}" then Some (PDict ∅) else None.

Definition sample_platform (net : nat -> string -> exn + response) : platform :=
  {| datetime := nat;
     BeautifulSoup := sample_soup;
     fromisoformat := fun _ => Some 0%nat;
     format_datetime := fun _ => "Thu, 01 Jan 1970 00:00:00 +0000";
     isoformat := fun _ => "1970-01-01T00:00:00+00:00";
     json_load := sample_json_load;
     format_value := sample_format_value;
     session_get := net;
     random_uniform01 := fun _ => (1 # 2)%Q;
     datetime_now := fun n => n;
     json_load_empty := eq_refl;
     format_datetime_nonempty := fun _ => ltac:(discriminate);
     format_datetime_plain := fun _ => eq_refl |}.

Definition w0 : world :=
  {| requests := 0; draws := 0; ticks := 0; slept := []; fs := ∅; stdout := [] |}.

(** A response with the given status and decoded body, without headers. *)
Definition respond (status : Z) (body : pyval) : response :=
  {| status_code := status; headers := ∅; json := Some body |}.

(** A 429 response with the given [Retry-After] header. *)
Definition rate_limited (retry_after : string) : response :=
  {| status_code := 429; headers := {[ "Retry-After" := retry_after ]};
     json := None |}.

(** A network that is down, and one that gives the same answer to every
    request. *)
Definition offline : nat -> string -> exn + response :=
  fun _ _ => inl ConnectionError.

Definition always (r : response) : nat -> string -> exn + response :=
  fun _ _ => inr r.

(** The value of a computation that returned, [d] if it raised. *)
Definition from_inr {A} (d : A) (r : exn + A) : A :=
  match r with inr a => a | inl _ => d end.

(** An item with the given identifier and otherwise fixed fields. *)
Definition sample_item (article_id : Z) : item :=
  {| item_id := PInt article_id; item_title := PStr "T";
     item_link := PStr "https://dev.to/a"; item_pub_date := "";
     item_content := "<p>x</p>" |}.

(** A world whose only file is the given state file. *)
Definition with_state_file (content : file) : world :=
  {| requests := 0; draws := 0; ticks := 0; slept := [];
     fs := {[ "state.json" := content ]}; stdout := [] |}.

(** The superscript two, as [requests] decodes the byte 0xB2 of a header. *)
Definition superscript_two : string := String "178" EmptyString.


(** ** Outcomes *)

(** The answer to a response that is not a 429. *)
Definition settle (resp : response) : exn + pyval :=
  if (400 <=? status_code resp) && (status_code resp <? 600)
  then inl (HTTPError (status_code resp))
  else match json resp with
       | Some v => inr v
       | None => inl JSONDecodeError
       end.

(** ** Reading escaped text back *)

(** The inverse of [html.escape] on its image: an entity reference is
    replaced by its character; [skip] characters are passed over first. *)
Fixpoint unescape_go (skip : nat) (s : string) : string :=
  match s with
  | EmptyString => EmptyString
  | String c t =>
      match skip with
      | S k => unescape_go k t
      | O =>
          if Ascii.eqb c "&" then
            if Text.starts_with "amp;" t then String "&" (unescape_go 4 t)
            else if Text.starts_with "lt;" t then String "<" (unescape_go 3 t)
            else if Text.starts_with "gt;" t then String ">" (unescape_go 3 t)
            else if Text.starts_with "quot;" t then String "034" (unescape_go 5 t)
            else if Text.starts_with "#x27;" t then String "'" (unescape_go 5 t)
            else String c (unescape_go 0 t)
          else String c (unescape_go 0 t)
      end
  end.

Definition unescape (s : string) : string := unescape_go 0 s.


(** ** Command line and daemon loop of [main] *)

(** The checks [main] makes on the parsed arguments before it does
    anything else. *)
Definition check_arguments (limit min_interval max_interval port : Z)
  : exn + unit :=
  if limit <=? 0 then inl ValueError
  else if (min_interval <=? 0) || (max_interval <=? 0) then inl ValueError
  else if max_interval <? min_interval then inl ValueError
  else if port <=? 0 then inl ValueError
  else inr tt.

(** [random.uniform(a, b)], which is [a + (b - a) * random()]; the
    numbers come from the generator [fetch_json] draws from. *)
Definition uniform `{platform} (a b : Q) : M Q :=
  u ← uniform01;
  mret (a + (b - a) * u)%Q.

(** [int(x)] on a number: truncation toward zero. *)
Definition int_of (x : Q) : Z := Z.quot (Qnum x) (Z.pos (Qden x)).

(** One pass of the [while True] loop. *)
Definition daemon_cycle `{platform} (limit top_days : Z)
    (output state_file : string) (min_interval max_interval : Z) : M unit :=
  refresh limit top_days output state_file;;
  sleep_for ← uniform (inject_Z min_interval) (inject_Z max_interval);
  print ("Sleeping for " +:+ pretty (int_of sleep_for) +:+ "s...");;
  sleep sleep_for.


(** ** A sample network *)

Definition sample_article : pyval :=
  PDict {[ "id" := PInt 7; "title" := PStr "Hi <there>";
           "url" := PStr "https://dev.to/x" ]}.

(** The first request is answered by the list of articles, the others by
    the detail record. *)
Definition sample_net (n : nat) (url : string) : exn + response :=
  if (n =? 0)%nat then inr (respond 200 (PList [sample_article]))
  else inr (respond 200 (PDict {[ "body_html" := PStr sample_body ]})).

(** ** Tactics *)

(** Unfolds the monad and the primitive effects. *)
Ltac run_step :=
  unfold mbind, M_bind, mret, M_ret, lift, raise, sleep, uniform01, http_get,
    now, print, write_file, open_read in *;
  cbn [requests draws ticks slept fs stdout] in *.

(** Closes the frame conditions of a computation. *)
Ltac frame_done :=
  cbn; repeat split; first [lia | reflexivity | assumption].

(** * Properties *)

(** ** Content extractor *)

Section ExtractorFacts.
Context `{platform}.

Lemma collect_paragraphs_take nodes acc :
  (length acc < 20)%nat ->
  collect_paragraphs nodes acc =
    acc ++ (PStr <$> take (20 - length acc)
              (List.filter Text.nonempty (map node_text nodes))).
Proof.
  revert acc. induction nodes as [|n rest IH]; intros acc Hacc.
  - cbn. rewrite take_nil. cbn. by rewrite app_nil_r.
  - cbn [collect_paragraphs map List.filter].
    destruct (Text.nonempty (node_text n)) eqn:Hn; cbn [negb].
    + rewrite length_app. cbn [length].
      destruct (Nat.leb_spec 20 (length acc + 1)) as [Hfull|Hfull].
      * replace (20 - length acc)%nat with 1%nat by lia.
        reflexivity.
      * rewrite IH by (rewrite length_app; cbn; lia).
        rewrite length_app. cbn [length].
        replace (20 - length acc)%nat with (S (20 - (length acc + 1)))%nat by lia.
        cbn [take fmap list_fmap]. by rewrite <- app_assoc.
    + by apply IH.
Qed.

Lemma collected_is_capped body :
  collect_paragraphs (Soup.find_all CANDIDATES (BeautifulSoup body)) [] =
    PStr <$> take 20 (candidate_texts body).
Proof. by rewrite collect_paragraphs_take by (simpl; lia). Qed.

Lemma total_is_length body :
  length (List.filter (fun n => Text.nonempty (node_text n))
            (Soup.find_all CANDIDATES (BeautifulSoup body))) =
    length (candidate_texts body).
Proof.
  unfold candidate_texts.
  induction (Soup.find_all CANDIDATES (BeautifulSoup body)) as [|n l IH];
    simpl; [done|].
  destruct (Text.nonempty (node_text n)); simpl; by rewrite IH.
Qed.

Lemma length_capped body :
  length (PStr <$> take 20 (candidate_texts body)) =
    (length (candidate_texts body) `min` 20)%nat.
Proof. rewrite length_fmap, length_take. lia. Qed.


(** C1: with at least two non-empty candidate nodes and no fallback
    text, [extract_paragraphs] returns the collapsed texts of those
    nodes in document order, capped at 20, followed by the truncation
    marker exactly when more than 20 such nodes exist and the capped
    list holds 20; a body with 25 of them gives 21 entries. *)
Theorem extract_paragraphs_exact body :
  let texts := candidate_texts body in
  let capped := PStr <$> take 20 texts in
  (2 <= length texts)%nat ->
  extract_paragraphs body PNone =
    capped ++ (if bool_decide (20 < length texts /\ length capped = 20)%nat
               then [PStr TRUNCATED] else [])
  /\ (length texts = 25%nat ->
      length (extract_paragraphs body PNone) = 21%nat).
Proof.
  intros texts capped Htwo.
  assert (Hlen : length capped = (length texts `min` 20)%nat)
    by apply length_capped.
  assert (Heq : extract_paragraphs body PNone =
    capped ++ (if bool_decide (20 < length texts /\ length capped = 20)%nat
               then [PStr TRUNCATED] else [])).
  { unfold extract_paragraphs.
    rewrite collected_is_capped, total_is_length.
    fold texts. fold capped. cbn [truthy]. rewrite andb_false_r.
    destruct (Nat.ltb_spec (length capped) 2) as [Hlt|_]; [lia|].
    destruct (Nat.ltb_spec 20 (length texts)) as [Hmore|Hfew]; cbn [andb].
    - destruct (Nat.leb_spec 20 (length capped)) as [_|Hlt]; [|lia].
      rewrite bool_decide_eq_true_2 by lia.
      apply take_ge. rewrite length_app. cbn. lia.
    - rewrite bool_decide_eq_false_2 by lia.
      rewrite app_nil_r. apply take_ge. lia. }
  split; [exact Heq|].
  intros H25. rewrite Heq, length_app, Hlen.
  rewrite bool_decide_eq_true_2 by lia. cbn. lia.
Qed.


End ExtractorFacts.

Lemma extract_paragraphs_exact_witness :
  let P := sample_platform offline in
  @extract_paragraphs P sample_body PNone = [PStr "a"; PStr "b"]
  /\ length (@extract_paragraphs P sample_long_body PNone) = 21%nat.
Proof.
  intros P. split.
  - destruct (@extract_paragraphs_exact P sample_body) as [Heq _].
    + vm_compute. lia.
    + rewrite Heq. reflexivity.
  - destruct (@extract_paragraphs_exact P sample_long_body) as [_ Hlen].
    + vm_compute. lia.
    + apply Hlen. reflexivity.
Defined.

(** Twenty-five paragraphs give the first twenty and the marker. *)
Example extract_paragraphs_25 :
  @extract_paragraphs (sample_platform offline) sample_long_body PNone =
    replicate 20 (PStr "x") ++ [PStr TRUNCATED].
Proof. vm_compute. reflexivity. Qed.


(** ** HTTP fetcher *)

Section FetcherFacts.
Context `{platform}.

(** A header that is absent, empty or not made of digits gives the
    exponential delay; a decimal one gives its value. *)
Lemma retry_delay_backoff r attempt :
  match headers r !! "Retry-After" with
  | Some retry_after => isdigit retry_after = false
  | None => True
  end ->
  retry_delay r attempt = inr (2 ^ Z.of_nat attempt).
Proof.
  unfold retry_delay. destruct (headers r !! "Retry-After") as [ra|]; [|done].
  intros ->. by rewrite andb_false_r.
Qed.

Lemma retry_delay_decimal r attempt retry_after :
  headers r !! "Retry-After" = Some retry_after ->
  Text.nonempty retry_after = true ->
  Text.all_chars isdecimal_char retry_after = true ->
  retry_delay r attempt = inr (decimal_value 0 retry_after).
Proof.
  unfold retry_delay, isdigit, py_int. intros -> Hne Hdec.
  rewrite Hne, Hdec. cbn [andb].
  assert (Text.all_chars isdigit_char retry_after = true) as ->; [|done].
  clear Hne. induction retry_after as [|c t IH]; [done|].
  cbn in *. apply andb_prop in Hdec as [Hc Ht]. rewrite IH by done.
  unfold isdigit_char, isdecimal_char in *. by rewrite Hc.
Qed.

(** The loop asks at most once per remaining iteration and touches
    neither the files, the clock nor the output. *)
Lemma fetch_json_loop_frame url remaining :
  forall attempt last w r w',
    fetch_json_loop url remaining attempt last w = (r, w') ->
    (requests w <= requests w' <= requests w + remaining)%nat
    /\ fs w' = fs w /\ stdout w' = stdout w /\ ticks w' = ticks w.
Proof.
  induction remaining as [|n IH]; intros attempt last w r w' Hrun.
  - cbn in Hrun. destruct last as [resp|]; run_step.
    + unfold raise_for_status in Hrun.
      destruct (_ && _); run_step; inversion Hrun; subst; frame_done.
    + inversion Hrun; subst; frame_done.
  - cbn [fetch_json_loop] in Hrun. run_step.
    destruct (session_get (requests w) url) as [e|resp].
    { inversion Hrun; subst; frame_done. }
    destruct (negb (status_code resp =? 429)).
    + unfold raise_for_status, response_json in Hrun.
      destruct (_ && _); run_step.
      * inversion Hrun; subst; frame_done.
      * destruct (json resp); run_step; inversion Hrun; subst; frame_done.
    + destruct (retry_delay resp attempt) as [e|delay].
      { inversion Hrun; subst; frame_done. }
      apply IH in Hrun. cbn in Hrun.
      destruct Hrun as (? & ? & ? & ?). frame_done.
Qed.

(** At most [retries + 1] requests are made. *)
Lemma fetch_json_attempts url retries w r w' :
  fetch_json url retries w = (r, w') ->
  (requests w' <= requests w + (retries + 1))%nat /\ fs w' = fs w.
Proof.
  unfold fetch_json. intros Hrun.
  apply fetch_json_loop_frame in Hrun. intuition lia.
Qed.

(** A status other than 429 ends the call at once: an error status is
    raised, any other status returns the decoded body, and nothing is
    slept. *)
Lemma fetch_json_no_retry url retries w resp :
  session_get (requests w) url = inr resp ->
  status_code resp <> 429 ->
  exists w',
    fetch_json url retries w =
      (if (400 <=? status_code resp) && (status_code resp <? 600)
       then inl (HTTPError (status_code resp))
       else match json resp with
            | Some v => inr v
            | None => inl JSONDecodeError
            end, w')
    /\ requests w' = S (requests w) /\ slept w' = slept w.
Proof.
  intros Hget Hstatus. unfold fetch_json.
  replace (retries + 1)%nat with (S retries) by lia.
  cbn [fetch_json_loop]. run_step. rewrite Hget.
  apply Z.eqb_neq in Hstatus. rewrite Hstatus. cbn [negb].
  unfold raise_for_status, response_json.
  destruct (_ && _); run_step; [eauto|].
  destruct (json resp); run_step; eauto.
Qed.


End FetcherFacts.

(** Four 429 answers with [Retry-After: 2]: each is followed by a sleep
    of two seconds and the jitter, and the error of the last is raised. *)
Example fetch_json_retry_after_2 :
  @fetch_json (sample_platform (always (rate_limited "2")))
      "https://dev.to/api/articles/1" RETRIES w0 =
    (inl (HTTPError 429),
     {| requests := 4; draws := 4; ticks := 0;
        slept := [5 # 2; 5 # 2; 5 # 2; 5 # 2]%Q; fs := ∅; stdout := [] |}).
Proof. vm_compute. reflexivity. Qed.

(** Without the header the delays are 1, 2, 4 and 8 seconds. *)
Example fetch_json_backoff :
  @fetch_json (sample_platform (always
                  {| status_code := 429; headers := ∅; json := None |}))
      "https://dev.to/api/articles/1" RETRIES w0 =
    (inl (HTTPError 429),
     {| requests := 4; draws := 4; ticks := 0;
        slept := [3 # 2; 5 # 2; 9 # 2; 17 # 2]%Q; fs := ∅; stdout := [] |}).
Proof. vm_compute. reflexivity. Qed.

(** C3 at a response the policy does not survive: a 429 whose
    [Retry-After] header is the superscript two passes [isdigit], cannot
    be converted by [int], and the call ends in [ValueError] after one
    request, without the exponential delay and without a retry. *)
Theorem fetch_json_superscript_retry_after :
  isdigit superscript_two = true
  /\ py_int superscript_two = inl ValueError
  /\ @fetch_json (sample_platform (fun _ _ => inr (rate_limited superscript_two)))
       "https://dev.to/api/articles/1" RETRIES w0 =
     (inl ValueError,
      {| requests := 1; draws := 0; ticks := 0; slept := []; fs := ∅;
         stdout := [] |}).
Proof. repeat split. Qed.

(** ** Feed renderer *)

Section XmlFacts.
Import Xml.
#[local] Arguments String.append !_ _ / : simpl nomatch.

Lemma append_assoc (a b c : string) : (a +:+ b) +:+ c = a +:+ b +:+ c.
Proof. induction a as [|x a IH]; cbn; [done|]. by rewrite IH. Qed.

Lemma append_empty_r (a : string) : a +:+ "" = a.
Proof. induction a as [|x a IH]; cbn; [done|]. by rewrite IH. Qed.

Lemma all_chars_app p a b :
  Text.all_chars p (a +:+ b) = Text.all_chars p a && Text.all_chars p b.
Proof.
  induction a as [|x a IH]; cbn; [done|]. by rewrite IH, andb_assoc.
Qed.

Lemma run_app st a b : run st (a +:+ b) = run (run st a) b.
Proof. revert st. induction a as [|x a IH]; intros st; cbn; [done|]. apply IH. Qed.

Lemma outside_app st a b :
  outside st (a +:+ b) = outside st a +:+ outside (run st a) b.
Proof.
  revert st. induction a as [|x a IH]; intros st; cbn; [done|].
  destruct st; by rewrite IH.
Qed.

(** Text without [<] leaves the reader where it was, and all of it is
    read outside sections. *)
Lemma no_lt_rest a :
  no_lt a = true -> run (Data 0) a = Data 0 /\ outside (Data 0) a = a.
Proof.
  induction a as [|x a IH]; [done|].
  intros Hno. cbn in Hno. apply andb_prop in Hno as [Hx Ha].
  apply negb_true_iff in Hx.
  assert (step (Data 0) x = Data 0) as Hstep.
  { cbn. rewrite Hx. rewrite bool_decide_eq_false_2; [done|].
    intros [= <-]. by rewrite Ascii.eqb_refl in Hx. }
  cbn [run outside]. rewrite Hstep. destruct (IH Ha) as [-> ->]. done.
Qed.

Lemma escape_char_clean c :
  no_lt (Text.escape_char c) = true
  /\ forall rest, raw_markup (Text.escape_char c +:+ rest) = raw_markup rest.
Proof.
  unfold Text.escape_char.
  destruct (Ascii.eqb_spec c "&") as [->|Hamp]; [split; [reflexivity | intros; reflexivity]|].
  destruct (Ascii.eqb_spec c "<") as [->|Hlt]; [split; [reflexivity | intros; reflexivity]|].
  destruct (Ascii.eqb_spec c ">") as [->|Hgt]; [split; [reflexivity | intros; reflexivity]|].
  destruct (Ascii.eqb_spec c "034") as [->|Hdq]; [split; [reflexivity | intros; reflexivity]|].
  destruct (Ascii.eqb_spec c "'") as [->|Hsq];
    [split; [reflexivity | intros; reflexivity]|].
  apply Ascii.eqb_neq in Hamp, Hlt, Hgt.
  split; cbn; [by rewrite Hlt|]. intros rest. by rewrite Hamp, Hlt, Hgt.
Qed.

Lemma escape_no_lt s : no_lt (Text.escape s) = true.
Proof.
  induction s as [|c s IH]; [done|].
  change (Text.escape (String c s)) with (Text.escape_char c +:+ Text.escape s).
  unfold no_lt in *. rewrite all_chars_app, IH, andb_true_r.
  apply escape_char_clean.
Qed.

(** An escaped string adds no raw markup. *)
Lemma raw_markup_escape s rest :
  raw_markup (Text.escape s +:+ rest) = raw_markup rest.
Proof.
  induction s as [|c s IH]; [done|].
  change (Text.escape (String c s)) with (Text.escape_char c +:+ Text.escape s).
  rewrite append_assoc. destruct (escape_char_clean c) as [_ ->]. apply IH.
Qed.

Lemma raw_markup_no_amp a rest :
  no_amp a = true -> raw_markup (a +:+ rest) = raw_markup a +:+ raw_markup rest.
Proof.
  induction a as [|x a IH]; cbn; [done|].
  intros [Hx Ha]%andb_prop. apply negb_true_iff in Hx. rewrite Hx.
  destruct (_ || _); cbn; by rewrite IH.
Qed.

Lemma plain_clean a :
  Text.plain a = true ->
  no_lt a = true /\ no_amp a = true /\ raw_markup a = "".
Proof.
  induction a as [|x a IH]; cbn; [done|].
  intros [Hx Ha]%andb_prop. destruct (IH Ha) as (Hlt & Hamp & Hraw).
  unfold Text.is_markup in Hx.
  apply negb_true_iff, orb_false_elim in Hx as [Hx Hamp'].
  apply orb_false_elim in Hx as [Hlt' Hgt'].
  unfold no_lt, no_amp in *. cbn.
  by rewrite Hlt', Hamp', Hgt', Hlt, Hamp, Hraw.
Qed.

Lemma has_cdata_end_tail c t :
  has_cdata_end (String c t) = false -> has_cdata_end t = false.
Proof. cbn [has_cdata_end]. by intros [_ ?]%orb_false_elim. Qed.

(** Inside a section, a text without the closing delimiter is skipped
    and the reader stays inside. *)
Lemma cdata_stays s :
  forall j, (j <= 2)%nat ->
    has_cdata_end (brackets j +:+ s) = false ->
    (exists j', (j' <= 2)%nat /\ run (CData j) s = CData j')
    /\ outside (CData j) s = "".
Proof.
  induction s as [|c t IH]; intros j Hj Hend.
  { cbn. eauto. }
  cbn [run outside step].
  destruct (Ascii.eqb_spec c "]") as [->|Hbr].
  - apply IH; [lia|].
    destruct j as [|[|[|j]]]; try lia; cbn [Nat.min brackets] in *.
    + exact Hend.
    + exact Hend.
    + by apply has_cdata_end_tail in Hend.
  - assert (has_cdata_end t = false) as Ht.
    { destruct j as [|[|[|j]]]; try lia; cbn [brackets] in Hend.
      + by apply has_cdata_end_tail in Hend.
      + by do 2 apply has_cdata_end_tail in Hend.
      + by do 3 apply has_cdata_end_tail in Hend. }
    destruct (Ascii.eqb_spec c ">") as [->|Hgt].
    + destruct j as [|[|[|j]]]; try lia; cbn [andb Nat.leb].
      * apply (IH 0%nat); [lia | exact Ht].
      * apply (IH 0%nat); [lia | exact Ht].
      * by cbn in Hend.
    + cbn [andb]. apply (IH 0%nat); [lia | exact Ht].
Qed.

Lemma cdata_close j :
  (j <= 2)%nat ->
  run (CData j) "]]>" = Data 0 /\ outside (CData j) "]]>" = "".
Proof. intros Hj. destruct j as [|[|[|j]]]; try lia; by split. Qed.

Lemma section_lex s :
  has_cdata_end s = false ->
  run (Data 0) (render (Section_ s)) = Data 0
  /\ outside (Data 0) (render (Section_ s)) = CDATA_OPEN.
Proof.
  intros Hs. destruct (cdata_stays s 0%nat) as [(j & Hj & Hrun) Hout]; [lia|done|].
  destruct (cdata_close j Hj) as [Hrun' Hout'].
  unfold render. rewrite run_app, outside_app.
  change (run (Data 0) CDATA_OPEN) with (CData 0).
  rewrite run_app, outside_app, Hrun, Hout, Hrun', Hout'.
  split; [done|]. apply append_empty_r.
Qed.

(** A well-formed chunk leaves the reader at rest and contributes its
    skeleton, whatever follows. *)
Lemma chunk_lex c :
  well_formed c = true ->
  run (Data 0) (render c) = Data 0
  /\ forall rest,
       raw_markup (outside (Data 0) (render c) +:+ rest) =
         skeleton c +:+ raw_markup rest.
Proof.
  destruct c as [s|s|s|s]; cbn [well_formed skeleton];
    [cbn [render] .. |].
  - intros [[Hamp Hrest]%andb_prop Hout%String.eqb_eq]%andb_prop.
    rewrite Hout. split.
    + by destruct (run (Data 0) s) as [[|k]|j].
    + intros rest. by apply raw_markup_no_amp.
  - intros _. destruct (no_lt_rest _ (escape_no_lt s)) as [-> ->].
    split; [done|]. intros rest. apply raw_markup_escape.
  - intros (Hlt & Hamp & Hraw)%plain_clean.
    destruct (no_lt_rest _ Hlt) as [-> ->].
    split; [done|]. intros rest. by rewrite raw_markup_no_amp, Hraw.
  - intros Hs%negb_true_iff. destruct (section_lex s Hs) as [-> ->].
    split; [done|]. intros rest. reflexivity.
Qed.

Lemma render_all_lex cs :
  forallb well_formed cs = true ->
  run (Data 0) (render_all cs) = Data 0
  /\ forall rest,
       raw_markup (outside (Data 0) (render_all cs) +:+ rest) =
         skeleton_all cs +:+ raw_markup rest.
Proof.
  induction cs as [|c cs IH]; [done|].
  cbn [forallb render_all skeleton_all].
  intros [Hc Hcs]%andb_prop.
  destruct (chunk_lex c Hc) as [Hrun Hraw]. destruct (IH Hcs) as [Hrun' Hraw'].
  rewrite run_app, outside_app, Hrun. split; [done|].
  intros rest. by rewrite append_assoc, Hraw, Hraw', append_assoc.
Qed.

(** The raw markup of a document made of well-formed chunks is the
    skeleton of its chunks. *)
Lemma markup_render_all cs :
  forallb well_formed cs = true -> markup (render_all cs) = skeleton_all cs.
Proof.
  intros Hcs. destruct (render_all_lex cs Hcs) as [_ Hraw].
  unfold markup. specialize (Hraw ""). by rewrite !append_empty_r in Hraw.
Qed.

Lemma render_all_app cs1 cs2 :
  render_all (cs1 ++ cs2) = render_all cs1 +:+ render_all cs2.
Proof.
  induction cs1 as [|c cs1 IH]; [done|].
  cbn [app render_all]. by rewrite IH, append_assoc.
Qed.

Lemma join_lines_then l1 l2 :
  l2 <> [] -> Text.join LF (l1 ++ l2) = lines_then l1 (Text.join LF l2).
Proof.
  intros Hl2. induction l1 as [|x l1 IH]; [done|].
  cbn [app lines_then fold_right]. fold (lines_then l1 (Text.join LF l2)).
  rewrite <- IH. unfold Text.join. cbn [String.concat].
  destruct (l1 ++ l2) eqn:Happ; [|done].
  by apply app_eq_nil in Happ as [_ ?].
Qed.

Lemma lines_then_app l1 l2 rest :
  lines_then (l1 ++ l2) rest = lines_then l1 (lines_then l2 rest).
Proof. unfold lines_then. apply fold_right_app. Qed.

Lemma head_chunks_lines now rest :
  lines_then (channel_head now) rest = render_all (head_chunks now) +:+ rest.
Proof.
  unfold channel_head, head_chunks, lines_then.
  cbn [fold_right render_all render].
  rewrite !append_assoc. reflexivity.
Qed.

Lemma item_parts_chunks it parts rest :
  item_parts it = inr parts ->
  lines_then parts rest = render_all (item_chunks it) +:+ rest.
Proof.
  unfold item_parts, html_escape.
  destruct (item_title it) as [| | |title| |] eqn:Htitle; try done.
  destruct (item_link it) as [| | |link| |] eqn:Hlink; try done.
  intros [= <-]. unfold item_chunks, lines_then. rewrite Htitle, Hlink.
  cbn [fold_right render_all render str].
  unfold LF, dq, CDATA_OPEN.
  repeat (progress (cbn [String.append]; rewrite ?append_assoc)).
  reflexivity.
Qed.

Lemma items_parts_chunks items parts rest :
  items_parts items = inr parts ->
  lines_then parts rest =
    render_all (concat (item_chunks <$> items)) +:+ rest.
Proof.
  revert parts. induction items as [|it items IH]; intros parts;
    cbn [items_parts fmap list_fmap concat].
  { by intros [= <-]. }
  destruct (item_parts it) as [e|block] eqn:Hblock; [done|].
  destruct (items_parts items) as [e|more]; [done|].
  intros [= <-].
  rewrite lines_then_app, (IH more eq_refl), (item_parts_chunks _ _ _ Hblock).
  by rewrite render_all_app, append_assoc.
Qed.

(** The rendered document, cut into its chunks. *)
Lemma document_render now items parts :
  items_parts items = inr parts ->
  Text.join LF (channel_head now ++ parts ++ channel_tail) =
    render_all (document_chunks now items).
Proof.
  intros Hparts. unfold document_chunks.
  rewrite app_assoc, join_lines_then by done.
  rewrite lines_then_app, head_chunks_lines.
  rewrite (items_parts_chunks _ _ _ Hparts).
  by rewrite !render_all_app.
Qed.

Lemma head_chunks_well_formed now :
  Text.plain now = true -> forallb well_formed (head_chunks now) = true.
Proof.
  intros Hnow. unfold head_chunks. cbn [forallb well_formed].
  rewrite Hnow. vm_compute. reflexivity.
Qed.

Lemma item_chunks_well_formed it :
  Text.plain (item_pub_date it) = true ->
  has_cdata_end (item_content it) = false ->
  forallb well_formed (item_chunks it) = true.
Proof.
  intros Hdate Hcontent. unfold item_chunks. cbn [forallb well_formed].
  rewrite Hdate, Hcontent. vm_compute. reflexivity.
Qed.

Lemma document_chunks_well_formed now items :
  Text.plain now = true ->
  Forall (fun it => Text.plain (item_pub_date it) = true
                    /\ has_cdata_end (item_content it) = false) items ->
  forallb well_formed (document_chunks now items) = true.
Proof.
  intros Hnow Hitems. unfold document_chunks.
  rewrite !forallb_app, head_chunks_well_formed by done.
  rewrite andb_true_r. cbn [andb].
  induction Hitems as [|it items [Hdate Hcontent] _ IH]; [done|].
  cbn [fmap list_fmap concat]. rewrite forallb_app, IH, andb_true_r.
  by apply item_chunks_well_formed.
Qed.

Lemma skeleton_blank now items :
  skeleton_all (document_chunks now (blank <$> items)) =
    skeleton_all (document_chunks now items).
Proof.
  unfold document_chunks.
  assert (forall cs1 cs2, skeleton_all (cs1 ++ cs2) =
            skeleton_all cs1 +:+ skeleton_all cs2) as Happ.
  { induction cs1 as [|c cs1 IH]; intros cs2; [done|].
    cbn [app skeleton_all]. by rewrite IH, append_assoc. }
  rewrite !Happ. f_equal. f_equal.
  induction items as [|it items IH]; [done|].
  cbn [fmap list_fmap concat]. rewrite !Happ.
  change (list_fmap item item blank items) with (blank <$> items).
  change (list_fmap item (list chunk) item_chunks ?l) with (item_chunks <$> l).
  rewrite IH. reflexivity.
Qed.

Lemma items_parts_blank items :
  exists parts, items_parts (blank <$> items) = inr parts.
Proof.
  induction items as [|it items [parts IH]]; cbn; [eauto|].
  change (list_fmap item item blank items) with (blank <$> items).
  rewrite IH. eauto.
Qed.

Lemma gt_after_p_app prev a b :
  gt_after_p prev a = true -> (forall q, gt_after_p q b = true) ->
  gt_after_p prev (a +:+ b) = true.
Proof.
  revert prev. induction a as [|c a IH]; intros prev Ha Hb; [apply Hb|].
  cbn [String.append gt_after_p] in *.
  apply andb_prop in Ha as [-> Ha]. by apply IH.
Qed.

Lemma escape_gt_after_p s : forall prev, gt_after_p prev (Text.escape s) = true.
Proof.
  induction s as [|c s IH]; intros prev; [done|].
  change (Text.escape (String c s)) with (Text.escape_char c +:+ Text.escape s).
  apply gt_after_p_app; [|exact IH].
  unfold Text.escape_char.
  destruct (Ascii.eqb_spec c "&"); [done|].
  destruct (Ascii.eqb_spec c "<"); [done|].
  destruct (Ascii.eqb_spec c ">") as [|Hgt]; [done|].
  destruct (Ascii.eqb_spec c "034"); [done|].
  destruct (Ascii.eqb_spec c "'"); [done|].
  apply Ascii.eqb_neq in Hgt. cbn. by rewrite Hgt.
Qed.

Lemma gt_after_p_no_cdata_end s :
  forall prev, gt_after_p prev s = true -> has_cdata_end s = false.
Proof.
  induction s as [|c s IH]; intros prev Hs; [done|].
  cbn [gt_after_p] in Hs. apply andb_prop in Hs as [_ Hs].
  cbn [has_cdata_end]. rewrite (IH _ Hs), orb_false_r.
  destruct s as [|d [|e s]]; cbn [Text.starts_with]; rewrite ?andb_false_r; try done.
  destruct (Ascii.eqb_spec "]" c) as [<-|]; [|done].
  destruct (Ascii.eqb_spec "]" d) as [<-|]; [|done].
  destruct (Ascii.eqb_spec ">" e) as [<-|]; [|done].
  by cbn in Hs.
Qed.

(** The content [paragraphs_to_html] builds never holds the end of a
    CDATA section: its only [>] are those of the paragraph tags. *)
Lemma paragraphs_to_html_no_cdata_end paragraphs html :
  paragraphs_to_html paragraphs = inr html -> has_cdata_end html = false.
Proof.
  intros Hhtml. apply (gt_after_p_no_cdata_end _ "p").
  revert html Hhtml. generalize "p"%char.
  induction paragraphs as [|v l IH]; intros prev html; cbn [paragraphs_to_html].
  { by intros [= <-]. }
  unfold html_escape. destruct v as [| | |text| |]; try done.
  destruct (paragraphs_to_html l) as [e|rest]; [done|].
  intros [= <-].
  apply (gt_after_p_app _ "<p>"); [done|]. intros q.
  apply gt_after_p_app; [apply escape_gt_after_p|]. intros q'.
  apply (gt_after_p_app _ "</p>"); [done|]. intros q''. by apply IH.
Qed.

End XmlFacts.

Section RendererFacts.
Context `{platform}.

Lemma item_parts_strings it parts :
  item_parts it = inr parts ->
  exists title link,
    item_title it = PStr title /\ item_link it = PStr link
    /\ parts =
        [ "    <item>";
          "      <title>" +:+ Text.escape title +:+ "</title>";
          "      <link>" +:+ Text.escape link +:+ "</link>";
          "      <guid isPermaLink=" +:+ dq +:+ "true" +:+ dq +:+ ">"
            +:+ Text.escape link +:+ "</guid>";
          "      <pubDate>" +:+ item_pub_date it +:+ "</pubDate>";
          "      <description><![CDATA[" +:+ item_content it
            +:+ "]]></description>";
          "      <content:encoded><![CDATA[" +:+ item_content it
            +:+ "]]></content:encoded>";
          "    </item>" ].
Proof.
  unfold item_parts, html_escape.
  destruct (item_title it) as [| | |title| |]; try done.
  destruct (item_link it) as [| | |link| |]; try done.
  intros [= <-]. by exists title, link.
Qed.

Lemma items_parts_elem items parts it :
  items_parts items = inr parts -> it ∈ items ->
  exists before block after,
    item_parts it = inr block /\ parts = before ++ block ++ after.
Proof.
  revert parts. induction items as [|x items IH]; intros parts Hparts Hin.
  { by apply elem_of_nil in Hin. }
  cbn [items_parts] in Hparts.
  destruct (item_parts x) as [e|block] eqn:Hblock; [done|].
  destruct (items_parts items) as [e|more]; [done|].
  injection Hparts as <-.
  apply elem_of_cons in Hin as [->|Hin].
  - by exists [], block, more.
  - destruct (IH more eq_refl Hin) as (before & block' & after & Hb & ->).
    exists (block ++ before), block', after. by rewrite <- app_assoc.
Qed.

Lemma build_rss_inv items w doc w' :
  build_rss items w = (inr doc, w') ->
  exists parts,
    items_parts items = inr parts
    /\ doc = Text.join LF (channel_head (format_datetime (datetime_now (ticks w)))
                             ++ parts ++ channel_tail)
    /\ w' = {| requests := requests w; draws := draws w; ticks := S (ticks w);
               slept := slept w; fs := fs w; stdout := stdout w |}.
Proof.
  unfold build_rss. run_step.
  destruct (items_parts items) as [e|parts]; [done|].
  intros [= <- <-]. by exists parts.
Qed.

(** C4, as the code has it: the title and the link of every item and the
    title, link and description of the channel go through [html.escape],
    while the dates and the content are inserted as they are.  When the
    dates have no markup character and no content holds the end of a
    CDATA section, the raw markup of the document outside CDATA sections
    and entity references is that of the same document with empty fields:
    none of it comes from the items. *)
Theorem build_rss_markup items w doc w' :
  build_rss items w = (inr doc, w') ->
  Forall (fun it => Text.plain (item_pub_date it) = true
                    /\ Xml.has_cdata_end (item_content it) = false) items ->
  doc = Xml.render_all
          (document_chunks (format_datetime (datetime_now (ticks w))) items)
  /\ exists doc0,
       build_rss (blank <$> items) w = (inr doc0, w')
       /\ Xml.markup doc = Xml.markup doc0.
Proof.
  intros Hrun Hitems.
  apply build_rss_inv in Hrun as (parts & Hparts & -> & ->).
  pose proof (format_datetime_plain (datetime_now (ticks w))) as Hnow.
  rewrite (document_render _ _ _ Hparts). split; [done|].
  destruct (items_parts_blank items) as [parts0 Hparts0].
  eexists. split.
  { unfold build_rss. run_step. rewrite Hparts0. reflexivity. }
  rewrite (document_render _ _ _ Hparts0).
  rewrite !markup_render_all.
  - symmetry. apply skeleton_blank.
  - apply document_chunks_well_formed; [done|].
    apply Forall_fmap, Forall_true. done.
  - by apply document_chunks_well_formed.
Qed.

(** C5: every item of a rendered document has its eight lines in it: the
    content is inside a CDATA section, unescaped, in the [description]
    and in the [content:encoded] element, and the escaped link is the
    body of a [guid] element with [isPermaLink="true"]. *)
Theorem build_rss_item_block items w doc w' it :
  build_rss items w = (inr doc, w') ->
  it ∈ items ->
  exists title link before after,
    item_title it = PStr title
    /\ item_link it = PStr link
    /\ doc = Text.join LF
        (before ++
         [ "    <item>";
           "      <title>" +:+ Text.escape title +:+ "</title>";
           "      <link>" +:+ Text.escape link +:+ "</link>";
           "      <guid isPermaLink=" +:+ dq +:+ "true" +:+ dq +:+ ">"
             +:+ Text.escape link +:+ "</guid>";
           "      <pubDate>" +:+ item_pub_date it +:+ "</pubDate>";
           "      <description><![CDATA[" +:+ item_content it
             +:+ "]]></description>";
           "      <content:encoded><![CDATA[" +:+ item_content it
             +:+ "]]></content:encoded>";
           "    </item>" ] ++ after).
Proof.
  intros Hrun Hin.
  apply build_rss_inv in Hrun as (parts & Hparts & -> & _).
  destruct (items_parts_elem _ _ _ Hparts Hin)
    as (before & block & after & Hblock & ->).
  apply item_parts_strings in Hblock as (title & link & Htitle & Hlink & ->).
  exists title, link,
    (channel_head (format_datetime (datetime_now (ticks w))) ++ before),
    (after ++ channel_tail).
  repeat split; [done..|].
  f_equal. by rewrite <- !app_assoc.
Qed.

End RendererFacts.

(** C4 as stated fails on a content that holds the end of a CDATA
    section: what follows it is read as markup. *)
Lemma build_rss_cdata_end_breaks_out :
  let P := sample_platform offline in
  let it := {| item_id := PInt 1; item_title := PStr "T";
               item_link := PStr "L"; item_pub_date := "";
               item_content := "]]><b>" |} in
  exists doc doc0 w',
    @build_rss P [it] w0 = (inr doc, w')
    /\ @build_rss P [blank it] w0 = (inr doc0, w')
    /\ Xml.markup doc <> Xml.markup doc0.
Proof.
  intros P it. eexists _, _, _.
  split; [vm_compute; reflexivity|].
  split; [vm_compute; reflexivity|].
  vm_compute. discriminate.
Qed.

Lemma build_rss_markup_witness :
  let P := sample_platform offline in
  let items := [sample_item 1; sample_item 2] in
  exists doc w',
    @build_rss P items w0 = (inr doc, w')
    /\ doc = Xml.render_all
               (document_chunks
                  (@format_datetime P (@datetime_now P (ticks w0))) items)
    /\ exists doc0,
         @build_rss P (blank <$> items) w0 = (inr doc0, w')
         /\ Xml.markup doc = Xml.markup doc0.
Proof.
  intros P items. eexists _, _.
  split; [vm_compute; reflexivity|].
  apply (@build_rss_markup P items w0).
  - vm_compute. reflexivity.
  - repeat constructor.
Defined.

Lemma build_rss_item_block_witness :
  let P := sample_platform offline in
  exists doc w' title link before after,
    @build_rss P [sample_item 1] w0 = (inr doc, w')
    /\ item_title (sample_item 1) = PStr title
    /\ item_link (sample_item 1) = PStr link
    /\ doc = Text.join LF
        (before ++
         [ "    <item>";
           "      <title>" +:+ Text.escape title +:+ "</title>";
           "      <link>" +:+ Text.escape link +:+ "</link>";
           "      <guid isPermaLink=" +:+ dq +:+ "true" +:+ dq +:+ ">"
             +:+ Text.escape link +:+ "</guid>";
           "      <pubDate>" +:+ item_pub_date (sample_item 1) +:+ "</pubDate>";
           "      <description><![CDATA[" +:+ item_content (sample_item 1)
             +:+ "]]></description>";
           "      <content:encoded><![CDATA[" +:+ item_content (sample_item 1)
             +:+ "]]></content:encoded>";
           "    </item>" ] ++ after).
Proof.
  intros P.
  pose (doc := from_inr "" (@build_rss P [sample_item 1] w0).1).
  pose (w' := (@build_rss P [sample_item 1] w0).2).
  assert (@build_rss P [sample_item 1] w0 = (inr doc, w')) as Hrun
    by (vm_compute; reflexivity).
  destruct (@build_rss_item_block P [sample_item 1] w0 doc w' (sample_item 1) Hrun)
    as (title & link & before & after & Htitle & Hlink & Hdoc).
  { apply elem_of_cons. left. reflexivity. }
  exists doc, w', title, link, before, after. repeat split; assumption.
Defined.

(** ** Refresh orchestrator *)

Section OrchestratorFacts.
Context `{platform}.

(** Reading the state never changes the world. *)
Lemma load_state_world path w r w' :
  load_state path w = (r, w') -> w' = w.
Proof.
  unfold load_state, try_except_FileNotFoundError, load_json. run_step.
  destruct (fs w !! path) as [[text|ind sk v]|]; cbn.
  - destruct (json_load text); cbn; by inversion 1.
  - by inversion 1.
  - by inversion 1.
Qed.

Lemma load_state_absent path w :
  fs w !! path = None -> load_state path w = (inr (PDict ∅), w).
Proof.
  intros Hnone. unfold load_state, try_except_FileNotFoundError. run_step.
  by rewrite Hnone.
Qed.

Lemma load_state_json path w ind sk v :
  fs w !! path = Some (JsonFile ind sk v) -> load_state path w = (inr v, w).
Proof.
  intros Hfile. unfold load_state, try_except_FileNotFoundError. run_step.
  by rewrite Hfile.
Qed.

(** The identifiers kept by the comprehension are those whose key is not
    in the previous set. *)
Lemma filter_not_in_keys previous l new_ids :
  filter_not_in previous l = inr new_ids ->
  exists current new_keys,
    hash_keys l = inr current
    /\ hash_keys new_ids = inr new_keys
    /\ (list_to_set new_keys : gset hkey) = list_to_set current ∖ previous.
Proof.
  revert new_ids. induction l as [|v l IH]; intros new_ids Hrun; cbn in *.
  - inversion Hrun; subst. exists [], []. cbn. repeat split. set_solver.
  - unfold not_in_set in Hrun.
    destruct (hash_key v) as [e|k] eqn:Hk; [done|].
    destruct (filter_not_in previous l) as [e|vs] eqn:Hrest; [done|].
    destruct (IH vs eq_refl) as (current & new_keys & Hc & Hn & Hset).
    rewrite Hc. inversion Hrun; subst; clear Hrun.
    case_bool_decide as Hin; cbn.
    + exists (k :: current), new_keys. rewrite Hn. repeat split.
      cbn. set_solver.
    + exists (k :: current), (k :: new_keys). rewrite Hk, Hn. repeat split.
      cbn. set_solver.
Qed.

Lemma filter_not_in_empty l keys :
  hash_keys l = inr keys -> filter_not_in ∅ l = inr l.
Proof.
  revert keys. induction l as [|v l IH]; intros keys Hkeys; cbn in *; [done|].
  unfold not_in_set.
  destruct (hash_key v) as [e|k]; [done|].
  destruct (hash_keys l) as [e|ks]; [done|].
  rewrite (IH ks eq_refl). by rewrite bool_decide_eq_false_2 by set_solver.
Qed.

(** What a successful [update_state] did: the state loaded was a
    dictionary, the new identifiers were filtered against its
    [latest_ids], and the file now holds that dictionary with the two
    entries overwritten. *)
Lemma update_state_inv path items w new_ids w' :
  update_state path items w = (inr new_ids, w') ->
  exists (state : gmap string pyval) (previous : gset hkey),
    load_state path w = (inr (PDict state), w)
    /\ py_set (default (PList []) (state !! "latest_ids")) = inr previous
    /\ filter_not_in previous (item_id <$> items) = inr new_ids
    /\ fs w' =
        <[path := JsonFile (Some 2%nat) true
            (PDict (<["updated_at" := PStr (isoformat (datetime_now (ticks w)))]>
                      (<["latest_ids" := PList (item_id <$> items)]> state)))]>
          (fs w).
Proof.
  unfold update_state. intros Hrun. run_step.
  destruct (load_state path w) as [[e|state] w1] eqn:Hload; [done|].
  apply load_state_world in Hload as Hw. subst w1.
  destruct state as [| | | | |state]; try done. cbn in Hrun.
  destruct (py_set _) as [e|previous] eqn:Hset; [done|].
  destruct (filter_not_in _ _) as [e|news] eqn:Hnew; [done|].
  cbn in Hrun. unfold save_state in Hrun. run_step.
  inversion Hrun; subst; clear Hrun.
  exists state, previous. by cbn.
Qed.

(** C6: when the top-articles call returns an empty list, [refresh]
    raises the no-articles error and the files are as they were: neither
    the feed nor the state file is written. *)
Theorem refresh_no_articles limit top_days output state_file w w1 :
  fetch_json (TOP_URL_TEMPLATE top_days limit) RETRIES w = (inr (PList []), w1) ->
  refresh limit top_days output state_file w =
    (inl (RuntimeError "No articles returned from the DEV.to API."), w1)
  /\ fs w1 = fs w.
Proof.
  intros Hfetch. split.
  - unfold refresh, collect_items. run_step. by rewrite Hfetch.
  - by apply fetch_json_attempts in Hfetch as [_ ?].
Qed.

(** C7: of two successive cycles, the identifiers the second one detects
    as new are, as a set, its own identifiers minus those of the first. *)
Theorem new_ids_successive_cycles path items1 items2 w new1 w1 w1' new2 w2 :
  update_state path items1 w = (inr new1, w1) ->
  fs w1' !! path = fs w1 !! path ->
  update_state path items2 w1' = (inr new2, w2) ->
  exists previous current new_keys,
    hash_keys (item_id <$> items1) = inr previous
    /\ hash_keys (item_id <$> items2) = inr current
    /\ hash_keys new2 = inr new_keys
    /\ (list_to_set new_keys : gset hkey) =
         list_to_set current ∖ list_to_set previous.
Proof.
  intros Hfirst Hsame Hsecond.
  apply update_state_inv in Hfirst as (st1 & prev1 & _ & _ & Hnew1 & Hfs1).
  apply filter_not_in_keys in Hnew1 as (previous & _ & Hprev & _).
  apply update_state_inv in Hsecond as (st2 & prev2 & Hload & Hset & Hnew2 & _).
  rewrite Hfs1, lookup_insert_eq in Hsame.
  rewrite (load_state_json _ _ _ _ _ Hsame) in Hload.
  inversion Hload; subst st2; clear Hload.
  rewrite lookup_insert_ne, lookup_insert_eq in Hset by done.
  cbn in Hset. rewrite Hprev in Hset. inversion Hset; subst prev2.
  apply filter_not_in_keys in Hnew2 as (current & new_keys & ? & ? & ?).
  by exists previous, current, new_keys.
Qed.

(** C8, as the code has it: a missing state file loads as the empty
    state, and then every identifier of the cycle is new; an empty file is
    not a missing one, decoding it raises. *)
Theorem missing_state_all_new path items keys w :
  hash_keys (item_id <$> items) = inr keys ->
  (fs w !! path = None ->
     load_state path w = (inr (PDict ∅), w)
     /\ exists w', update_state path items w = (inr (item_id <$> items), w'))
  /\ (fs w !! path = Some (TextFile "") ->
      load_state path w = (inl JSONDecodeError, w)).
Proof.
  intros Hkeys. split.
  - intros Hnone. split; [by apply load_state_absent|].
    unfold update_state. run_step. rewrite (load_state_absent _ _ Hnone).
    cbn. rewrite lookup_empty. cbn.
    rewrite (filter_not_in_empty _ _ Hkeys). eauto.
  - intros Hempty.
    unfold load_state, try_except_FileNotFoundError, load_json. run_step.
    by rewrite Hempty, json_load_empty.
Qed.

(** C9, as the code has it: after a successful update the state file is
    the document dumped with indent 2 and sorted keys for the dictionary
    that was loaded with [latest_ids] and [updated_at] overwritten; the
    other entries of the loaded dictionary stay, so the file has exactly
    the two entries when the loaded state had no others. *)
Theorem update_state_written path items w new_ids w' :
  update_state path items w = (inr new_ids, w') ->
  exists loaded written : gmap string pyval,
    load_state path w = (inr (PDict loaded), w)
    /\ fs w' !! path = Some (JsonFile (Some 2%nat) true (PDict written))
    /\ written !! "latest_ids" = Some (PList (item_id <$> items))
    /\ written !! "updated_at" =
         Some (PStr (isoformat (datetime_now (ticks w))))
    /\ (forall key, key <> "latest_ids" -> key <> "updated_at" ->
          written !! key = loaded !! key)
    /\ (dom loaded ⊆ {[ "latest_ids"; "updated_at" ]} ->
        written = {[ "latest_ids" := PList (item_id <$> items);
                     "updated_at" :=
                       PStr (isoformat (datetime_now (ticks w))) ]}).
Proof.
  intros Hrun.
  apply update_state_inv in Hrun as (loaded & prev & Hload & _ & _ & Hfs).
  eexists loaded, _. split; [exact Hload|].
  split; [by rewrite Hfs, lookup_insert_eq|].
  split; [by rewrite lookup_insert_ne, lookup_insert_eq|].
  split; [by rewrite lookup_insert_eq|].
  split.
  - intros key H1 H2. by rewrite !lookup_insert_ne.
  - intros Hdom. apply map_eq. intros key.
    destruct (decide (key = "updated_at")) as [->|Hu].
    { rewrite lookup_insert_eq.
      by rewrite lookup_insert_ne, lookup_singleton_eq. }
    destruct (decide (key = "latest_ids")) as [->|Hl].
    { by rewrite lookup_insert_ne, !lookup_insert_eq. }
    rewrite !lookup_insert_ne, lookup_singleton_ne by done.
    apply not_elem_of_dom. set_solver.
Qed.

Lemma Forall_if_snoc {A} (P : A -> Prop) (b : bool) l x :
  Forall P l -> (b = true -> P x) -> Forall P (if b then l ++ [x] else l).
Proof.
  intros Hl Hx. destruct b; [|done].
  apply Forall_app. split; [done|]. apply Forall_singleton. by apply Hx.
Qed.

Lemma extract_paragraphs_strings body fallback_text :
  (truthy fallback_text = true -> is_PStr fallback_text) ->
  Forall is_PStr (extract_paragraphs body fallback_text).
Proof.
  intros Hfb. unfold extract_paragraphs. apply Forall_take.
  repeat apply Forall_if_snoc; try done.
  - rewrite collected_is_capped. by apply Forall_fmap, Forall_true.
  - intros Hb. apply Hfb. by apply andb_prop in Hb as [_ ?].
Qed.

Lemma paragraphs_to_html_strings paragraphs :
  Forall is_PStr paragraphs -> exists html, paragraphs_to_html paragraphs = inr html.
Proof.
  induction 1 as [|v l Hv _ [html IH]]; cbn; [eauto|].
  destruct v; try done. cbn. rewrite IH. eauto.
Qed.

(** The items [collect_item] builds meet the conditions under which the
    renderer keeps their text out of the markup. *)
Lemma pub_date_of_plain published w date w' :
  pub_date_of published w = (inr date, w') -> Text.plain date = true.
Proof.
  unfold pub_date_of. run_step.
  destruct (truthy published).
  - destruct published as [| | |p| |]; try done.
    destruct (fromisoformat _); [|done].
    intros [= <- _]. apply format_datetime_plain.
  - intros [= <- _]. apply format_datetime_plain.
Qed.

Lemma collect_item_well_formed article w it w' :
  collect_item article w = (inr it, w') ->
  Text.plain (item_pub_date it) = true
  /\ Xml.has_cdata_end (item_content it) = false.
Proof.
  unfold collect_item. run_step. intros Hrun.
  repeat match type of Hrun with
         | context [match ?x with _ => _ end] =>
             let E := fresh "E" in destruct x eqn:E; try discriminate Hrun
         end.
  injection Hrun as <- _. cbn [item_pub_date item_content]. split.
  - eapply pub_date_of_plain; eassumption.
  - eapply paragraphs_to_html_no_cdata_end; eassumption.
Qed.

Lemma mapM_Forall {A B} (f : A -> M B) (Q : B -> Prop) l :
  (forall x w y w', f x w = (inr y, w') -> Q y) ->
  forall w ys w', mapM f l w = (inr ys, w') -> Forall Q ys.
Proof.
  intros Hf. induction l as [|x l IH]; intros w ys w'; cbn [mapM]; run_step.
  { by intros [= <- _]. }
  destruct (f x w) as [[e|y] w1] eqn:Hx; [done|].
  destruct (mapM f l w1) as [[e|ys'] w2] eqn:Hl; [done|].
  intros [= <- _]. constructor; [by eapply Hf | by eapply IH].
Qed.

Lemma collect_items_well_formed limit top_days w items w' :
  collect_items limit top_days w = (inr items, w') ->
  Forall (fun it => Text.plain (item_pub_date it) = true
                    /\ Xml.has_cdata_end (item_content it) = false) items.
Proof.
  unfold collect_items. run_step.
  destruct (fetch_json _ _ w) as [[e|top] w1]; [done|].
  destruct (negb (truthy top)); [done|].
  destruct (sliced_items top limit) as [e|articles]; [done|].
  apply mapM_Forall. intros article. apply collect_item_well_formed.
Qed.


End OrchestratorFacts.

(** *** Runs on the sample platform *)

Lemma refresh_no_articles_witness :
  @refresh (sample_platform (always (respond 200 (PList []))))
      20 30 "devto_top_month.xml" "devto_top_month_state.json" w0 =
    (inl (RuntimeError "No articles returned from the DEV.to API."),
     {| requests := 1; draws := 0; ticks := 0; slept := []; fs := ∅;
        stdout := [] |})
  /\ fs {| requests := 1; draws := 0; ticks := 0; slept := []; fs := ∅;
           stdout := [] |} = fs w0.
Proof.
  apply (@refresh_no_articles (sample_platform (always (respond 200 (PList []))))).
  reflexivity.
Defined.

(** The identifier sets {1,2,3} and then {2,3,4}: the second cycle finds
    4, and only 4, new. *)
Example second_cycle_finds_4 :
  let P := sample_platform offline in
  let w1 := (@update_state P "state.json" (sample_item <$> [1; 2; 3]) w0).2 in
  (@update_state P "state.json" (sample_item <$> [2; 3; 4]) w1).1
    = inr [PInt 4].
Proof. vm_compute. reflexivity. Qed.

Lemma new_ids_successive_cycles_witness :
  exists previous current new_keys,
    hash_keys (item_id <$> (sample_item <$> [1; 2; 3])) = inr previous
    /\ hash_keys (item_id <$> (sample_item <$> [2; 3; 4])) = inr current
    /\ hash_keys [PInt 4] = inr new_keys
    /\ (list_to_set new_keys : gset hkey) =
         list_to_set current ∖ list_to_set previous.
Proof.
  eapply (@new_ids_successive_cycles (sample_platform offline) "state.json"
            (sample_item <$> [1; 2; 3]) (sample_item <$> [2; 3; 4]) w0).
  - vm_compute. reflexivity.
  - reflexivity.
  - vm_compute. reflexivity.
Defined.

(** C8 as stated fails on an empty state file: it is there, so nothing is
    caught, and decoding its empty text raises. *)
Lemma load_state_empty_file_raises :
  let P := sample_platform offline in
  let w := with_state_file (TextFile "") in
  fs w !! "state.json" = Some (TextFile "")
  /\ @load_state P "state.json" w = (inl JSONDecodeError, w)
  /\ @load_state P "state.json" w <> (inr (PDict ∅), w).
Proof. repeat split. discriminate. Qed.

Lemma missing_state_all_new_witness :
  let P := sample_platform offline in
  (@load_state P "state.json" w0 = (inr (PDict ∅), w0)
   /\ exists w', @update_state P "state.json" (sample_item <$> [1; 2; 3]) w0 =
                   (inr (item_id <$> (sample_item <$> [1; 2; 3])), w'))
  /\ @load_state P "state.json" (with_state_file (TextFile "")) =
       (inl JSONDecodeError, with_state_file (TextFile "")).
Proof.
  intros P.
  assert (hash_keys (item_id <$> (sample_item <$> [1; 2; 3])) =
            inr [HInt 1; HInt 2; HInt 3]) as Hkeys by reflexivity.
  destruct (@missing_state_all_new P "state.json" (sample_item <$> [1; 2; 3])
              [HInt 1; HInt 2; HInt 3] w0 Hkeys) as [Habsent _].
  destruct (@missing_state_all_new P "state.json" (sample_item <$> [1; 2; 3])
              [HInt 1; HInt 2; HInt 3] (with_state_file (TextFile "")) Hkeys)
    as [_ Hempty].
  split; [apply Habsent; reflexivity | apply Hempty; reflexivity].
Defined.

(** C9 as stated fails on a state file with a third entry: the entry is
    still there after the update. *)
Lemma update_state_keeps_other_entries :
  let P := sample_platform offline in
  let w := with_state_file (JsonFile None false (PDict {[ "extra" := PInt 1 ]})) in
  exists new_ids w' written,
    @update_state P "state.json" [sample_item 1] w = (inr new_ids, w')
    /\ fs w' !! "state.json" = Some (JsonFile (Some 2%nat) true (PDict written))
    /\ written !! "extra" = Some (PInt 1)
    /\ written <> {[ "latest_ids" := PList [PInt 1];
                     "updated_at" := PStr (@isoformat P (@datetime_now P 0%nat)) ]}.
Proof.
  intros P w. eexists _, _, _.
  split; [vm_compute; reflexivity|].
  split; [reflexivity|].
  split; [reflexivity|].
  intros Heq. apply (f_equal (fun m : gmap string pyval => m !! "extra")) in Heq.
  vm_compute in Heq. discriminate.
Qed.

Lemma update_state_written_witness :
  let P := sample_platform offline in
  exists loaded written : gmap string pyval,
    @load_state P "state.json" w0 = (inr (PDict loaded), w0)
    /\ fs (@update_state P "state.json" [sample_item 1] w0).2 !! "state.json" =
         Some (JsonFile (Some 2%nat) true (PDict written))
    /\ written !! "latest_ids" = Some (PList (item_id <$> [sample_item 1]))
    /\ written !! "updated_at" =
         Some (PStr (@isoformat P (@datetime_now P (ticks w0))))
    /\ (forall key, key <> "latest_ids" -> key <> "updated_at" ->
          written !! key = loaded !! key)
    /\ (dom loaded ⊆ {[ "latest_ids"; "updated_at" ]} ->
        written = {[ "latest_ids" := PList (item_id <$> [sample_item 1]);
                     "updated_at" :=
                       PStr (@isoformat P (@datetime_now P (ticks w0))) ]}).
Proof.
  intros P.
  apply (@update_state_written P "state.json" [sample_item 1] w0 [PInt 1]).
  vm_compute. reflexivity.
Defined.



(** One cycle over a single article: the item is counted, reported as new
    and recorded in the state file. *)
Example refresh_sample_run :
  let net n (url : string) :=
    if (n =? 0)%nat
    then inr (respond 200 (PList [PDict {[ "id" := PInt 7;
                                           "title" := PStr "Hi <there>";
                                           "url" := PStr "https://dev.to/x" ]}]))
    else inr (respond 200 (PDict {[ "body_html" := PStr sample_body ]})) in
  let P := sample_platform net in
  let run := @refresh P 20 30 "devto_top_month.xml" "devto_top_month_state.json" w0 in
  run.1 = inr 1%nat
  /\ stdout run.2 = ["Found 1 new articles. Feed updated."]
  /\ fs run.2 !! "devto_top_month_state.json" =
       Some (JsonFile (Some 2%nat) true
               (PDict {[ "latest_ids" := PList [PInt 7];
                         "updated_at" := PStr "1970-01-01T00:00:00+00:00" ]})).
Proof. vm_compute. repeat split. Qed.


(** * Further properties *)

(** ** HTTP fetcher: effects, recovery, delays *)

Section FetcherCoverage.
Context `{platform}.

(** What a run of the loop leaves behind: one sleep per random number
    drawn, at most one per request and at most one request without a
    sleep; files, output and clock are as before. *)
Lemma fetch_json_loop_effects url remaining :
  forall attempt last w r w',
    fetch_json_loop url remaining attempt last w = (r, w') ->
    exists new_sleeps,
      slept w' = slept w ++ new_sleeps
      /\ draws w' = (draws w + length new_sleeps)%nat
      /\ (requests w' <= requests w + remaining)%nat
      /\ (0 < remaining -> requests w + 1 <= requests w')%nat
      /\ (requests w + length new_sleeps <= requests w')%nat
      /\ (requests w' <= requests w + length new_sleeps + 1)%nat
      /\ fs w' = fs w /\ stdout w' = stdout w /\ ticks w' = ticks w.
Proof.
  induction remaining as [|n IH]; intros attempt last w r w' Hrun.
  - exists []. rewrite app_nil_r. cbn in Hrun.
    destruct last as [resp|]; run_step.
    + unfold raise_for_status in Hrun.
      destruct (_ && _); run_step; inversion Hrun; subst; cbn;
        repeat split; lia.
    + inversion Hrun; subst; cbn; repeat split; lia.
  - cbn [fetch_json_loop] in Hrun. run_step.
    destruct (session_get (requests w) url) as [e|resp].
    { exists []. rewrite app_nil_r. inversion Hrun; subst; cbn.
      repeat split; lia. }
    destruct (negb (status_code resp =? 429)).
    + exists []. rewrite app_nil_r.
      unfold raise_for_status, response_json in Hrun.
      destruct (_ && _); run_step.
      * inversion Hrun; subst; cbn; repeat split; lia.
      * destruct (json resp); run_step; inversion Hrun; subst; cbn;
          repeat split; lia.
    + destruct (retry_delay resp attempt) as [e|delay].
      { exists []. rewrite app_nil_r. inversion Hrun; subst; cbn.
        repeat split; lia. }
      apply IH in Hrun as (more & Hs & Hd & Hr1 & _ & Hr2 & Hr3 & Hf & Ho & Ht).
      cbn [requests draws ticks slept fs stdout] in *.
      exists ((inject_Z delay + random_uniform01 (draws w))%Q :: more).
      rewrite Hs, <- app_assoc. cbn [app length].
      repeat split; first [done | lia].
Qed.


Lemma fetch_json_loop_settles url n attempt last w resp :
  session_get (requests w) url = inr resp ->
  status_code resp <> 429 ->
  fetch_json_loop url (S n) attempt last w =
    (settle resp,
     {| requests := S (requests w); draws := draws w; ticks := ticks w;
        slept := slept w; fs := fs w; stdout := stdout w |}).
Proof.
  intros Hget Hstatus. cbn [fetch_json_loop]. run_step. rewrite Hget.
  apply Z.eqb_neq in Hstatus. rewrite Hstatus. cbn [negb].
  unfold raise_for_status, response_json, settle.
  destruct (_ && _); run_step; [done|].
  by destruct (json resp).
Qed.

(** X2: nothing but a 429 is retried.  When [session.get] raises, the
    exception is the outcome; when the status is not 429, an error status
    raises [HTTPError] and any other returns the decoded body (or raises
    if there is none); in each case after one request and no sleep. *)
Theorem fetch_json_immediate url retries w outcome :
  session_get (requests w) url = outcome ->
  match outcome with
  | inl _ => True
  | inr resp => status_code resp <> 429
  end ->
  fetch_json url retries w =
    (match outcome with inl e => inl e | inr resp => settle resp end,
     {| requests := S (requests w); draws := draws w; ticks := ticks w;
        slept := slept w; fs := fs w; stdout := stdout w |}).
Proof.
  intros Hget Hstatus. unfold fetch_json.
  replace (retries + 1)%nat with (S retries) by lia.
  destruct outcome as [e|resp].
  - cbn [fetch_json_loop]. run_step. by rewrite Hget.
  - by apply fetch_json_loop_settles.
Qed.




Lemma decimal_value_nonneg s :
  forall acc, 0 <= acc -> Text.all_chars isdecimal_char s = true ->
    0 <= decimal_value acc s.
Proof.
  induction s as [|c s IH]; intros acc Hacc Hs; cbn in *; [done|].
  apply andb_prop in Hs as [Hc Hs]. apply IH; [|done].
  unfold isdecimal_char in Hc. apply andb_prop in Hc as [Hc _].
  apply Nat.leb_le in Hc. lia.
Qed.

Lemma retry_delay_nonneg resp attempt delay :
  retry_delay resp attempt = inr delay -> 0 <= delay.
Proof.
  unfold retry_delay, py_int.
  destruct (headers resp !! "Retry-After") as [ra|].
  - destruct (Text.nonempty ra && isdigit ra).
    + destruct (Text.nonempty ra && Text.all_chars isdecimal_char ra) eqn:Hdec;
        [|done].
      intros [= <-]. apply andb_prop in Hdec as [_ Hdec].
      by apply decimal_value_nonneg.
    + intros [= <-]. apply Z.pow_nonneg. lia.
  - intros [= <-]. apply Z.pow_nonneg. lia.
Qed.

Lemma fetch_json_loop_sleeps_nonneg url remaining :
  (forall n, (0 <= random_uniform01 n)%Q) ->
  forall attempt last w r w',
    Forall (fun d => (0 <= d)%Q) (slept w) ->
    fetch_json_loop url remaining attempt last w = (r, w') ->
    Forall (fun d => (0 <= d)%Q) (slept w').
Proof.
  intros Hrand.
  induction remaining as [|n IH]; intros attempt last w r w' Hw Hrun.
  - cbn in Hrun. destruct last as [resp|]; run_step.
    + unfold raise_for_status in Hrun.
      destruct (_ && _); run_step; by inversion Hrun; subst.
    + by inversion Hrun; subst.
  - cbn [fetch_json_loop] in Hrun. run_step.
    destruct (session_get (requests w) url) as [e|resp].
    { by inversion Hrun; subst. }
    destruct (negb (status_code resp =? 429)).
    + unfold raise_for_status, response_json in Hrun.
      destruct (_ && _); run_step; [by inversion Hrun; subst|].
      destruct (json resp); run_step; by inversion Hrun; subst.
    + destruct (retry_delay resp attempt) as [e|delay] eqn:Hdelay.
      { by inversion Hrun; subst. }
      eapply IH; [|exact Hrun]. cbn [slept].
      apply Forall_app. split; [done|]. apply Forall_singleton.
      apply retry_delay_nonneg in Hdelay.
      change 0%Q with (0 + 0)%Q. apply Qplus_le_compat; [|apply Hrand].
      unfold Qle. cbn. lia.
Qed.

(** X5: as long as the random numbers are not negative, no sleep is: the
    delay read from a [Retry-After] header or computed as a power of two
    is never negative. *)
Theorem fetch_json_sleeps_nonneg url retries w r w' :
  (forall n, (0 <= random_uniform01 n)%Q) ->
  Forall (fun d => (0 <= d)%Q) (slept w) ->
  fetch_json url retries w = (r, w') ->
  Forall (fun d => (0 <= d)%Q) (slept w').
Proof.
  intros Hrand Hw Hrun. by eapply fetch_json_loop_sleeps_nonneg.
Qed.

End FetcherCoverage.


Lemma fetch_json_immediate_witness :
  @fetch_json (sample_platform (always (respond 404 PNone)))
      "https://dev.to/api/articles/1" RETRIES w0 =
    (inl (HTTPError 404),
     {| requests := 1; draws := 0; ticks := 0; slept := []; fs := ∅;
        stdout := [] |})
  /\ @fetch_json (sample_platform offline)
         "https://dev.to/api/articles/1" RETRIES w0 =
       (inl ConnectionError,
        {| requests := 1; draws := 0; ticks := 0; slept := []; fs := ∅;
           stdout := [] |}).
Proof.
  split.
  - apply (@fetch_json_immediate (sample_platform (always (respond 404 PNone)))
             "https://dev.to/api/articles/1" RETRIES w0
             (inr (respond 404 PNone))); [reflexivity | discriminate].
  - apply (@fetch_json_immediate (sample_platform offline)
             "https://dev.to/api/articles/1" RETRIES w0
             (inl ConnectionError)); [reflexivity | exact I].
Defined.



Lemma fetch_json_sleeps_nonneg_witness :
  let P := sample_platform (always (rate_limited "2")) in
  Forall (fun d => (0 <= d)%Q)
    (slept (@fetch_json P "https://dev.to/api/articles/1" RETRIES w0).2).
Proof.
  intros P.
  apply (@fetch_json_sleeps_nonneg P "https://dev.to/api/articles/1" RETRIES w0
           (@fetch_json P "https://dev.to/api/articles/1" RETRIES w0).1).
  - intros n. vm_compute. discriminate.
  - constructor.
  - vm_compute. reflexivity.
Defined.

(** ** Content extractor: what the result is made of *)

Section ExtractorCoverage.
Context `{platform}.

Lemma capped_truthy body :
  Forall (fun v => truthy v = true) (PStr <$> take 20 (candidate_texts body)).
Proof.
  apply Forall_fmap, Forall_take, Forall_forall. intros text Hin.
  apply list_elem_of_In in Hin. unfold candidate_texts in Hin.
  apply filter_In in Hin as [_ Hne]. exact Hne.
Qed.

Lemma extract_paragraphs_length_ge body fallback_text :
  (length (candidate_texts body) `min` 20
   <= length (extract_paragraphs body fallback_text))%nat.
Proof.
  unfold extract_paragraphs. rewrite collected_is_capped, total_is_length.
  pose proof (length_capped body) as Hlen. rewrite length_take.
  repeat match goal with
         | |- context [if ?b then _ else _] => destruct b eqn:?
         end;
    rewrite ?length_app in *; cbn [length] in *; lia.
Qed.

(** X6: no snippet is empty.  Whatever the body and the fallback, every
    entry of the result is a truthy value: a non-empty text of the
    document, a truthy fallback or a placeholder. *)
Theorem extract_paragraphs_truthy body fallback_text :
  Forall (fun v => truthy v = true) (extract_paragraphs body fallback_text).
Proof.
  unfold extract_paragraphs. apply Forall_take.
  repeat apply Forall_if_snoc; try done.
  - rewrite collected_is_capped. apply capped_truthy.
  - intros Hb. by apply andb_prop in Hb as [_ ?].
Qed.

(** X7: with two or more candidate texts the fallback plays no part: the
    result is the same for every fallback. *)
Theorem extract_paragraphs_ignores_fallback body fallback_text :
  (2 <= length (candidate_texts body))%nat ->
  extract_paragraphs body fallback_text = extract_paragraphs body PNone.
Proof.
  intros Htwo. unfold extract_paragraphs. rewrite collected_is_capped.
  pose proof (length_capped body) as Hlen.
  destruct (Nat.ltb_spec (length (PStr <$> take 20 (candidate_texts body))) 2)
    as [Hlt|_]; [lia|].
  reflexivity.
Qed.

(** X8: the result has a single entry exactly when the body has no
    candidate text and the fallback is falsy, and this entry is the
    placeholder for an unavailable snippet. *)
Theorem extract_paragraphs_single body fallback_text :
  (length (extract_paragraphs body fallback_text) = 1%nat
   <-> candidate_texts body = [] /\ truthy fallback_text = false)
  /\ (length (extract_paragraphs body fallback_text) = 1%nat ->
      extract_paragraphs body fallback_text = [PStr UNAVAILABLE]).
Proof.
  pose proof (extract_paragraphs_length_ge body fallback_text) as Hmany.
  destruct (candidate_texts body) as [|t1 [|t2 texts]] eqn:Htexts.
  - unfold extract_paragraphs.
    rewrite collected_is_capped, total_is_length, Htexts.
    destruct (truthy fallback_text); cbn; split; try done.
    split; [done | by intros [_ ?]].
  - unfold extract_paragraphs.
    rewrite collected_is_capped, total_is_length, Htexts.
    destruct (truthy fallback_text); cbn; split; try done;
      split; try done; by intros [? _].
  - cbn [length] in Hmany.
    split; [split|]; [intros Hone; lia | by intros [? _] | intros Hone; lia].
Qed.

(** X9: the texts of the document always come first.  For every body and
    fallback the result starts with the first twenty candidate texts, in
    document order, and holds at most two entries more. *)
Theorem extract_paragraphs_prefix body fallback_text :
  exists suffix,
    extract_paragraphs body fallback_text =
      (PStr <$> take 20 (candidate_texts body)) ++ suffix
    /\ (length suffix <= 2)%nat.
Proof.
  unfold extract_paragraphs. rewrite collected_is_capped, total_is_length.
  pose proof (length_capped body) as Hlen.
  set (capped := PStr <$> take 20 (candidate_texts body)) in *.
  destruct (Nat.ltb_spec (length capped) 2) as [Hshort|Hlong]; cbn [andb].
  - destruct (truthy fallback_text).
    + rewrite length_app. cbn [length].
      destruct (Nat.ltb_spec (length capped + 1) 2) as [H1|H1].
      * rewrite (proj2 (Nat.leb_gt 20 _))
          by (rewrite !length_app; cbn; lia).
        rewrite andb_false_r, take_ge by (rewrite !length_app; cbn; lia).
        exists [fallback_text; PStr UNAVAILABLE].
        by rewrite <- app_assoc.
      * rewrite (proj2 (Nat.leb_gt 20 _)) by (rewrite !length_app; cbn; lia).
        rewrite andb_false_r, take_ge by (rewrite !length_app; cbn; lia).
        exists [fallback_text]. split; [done | cbn; lia].
    + destruct (Nat.ltb_spec (length capped) 2) as [_|H1]; [|lia].
      rewrite (proj2 (Nat.leb_gt 20 _)) by (rewrite !length_app; cbn; lia).
      rewrite andb_false_r, take_ge by (rewrite !length_app; cbn; lia).
      exists [PStr UNAVAILABLE]. split; [done | cbn; lia].
  - destruct (Nat.ltb_spec (length capped) 2) as [H1|_]; [lia|].
    destruct (_ && _).
    + rewrite take_ge by (rewrite !length_app; cbn; lia).
      exists [PStr TRUNCATED]. split; [done | cbn; lia].
    + rewrite take_ge by lia. exists []. rewrite app_nil_r. split; [done | cbn; lia].
Qed.

End ExtractorCoverage.

Lemma extract_paragraphs_ignores_fallback_witness :
  let P := sample_platform offline in
  @extract_paragraphs P sample_body (PStr "summary") =
    @extract_paragraphs P sample_body PNone.
Proof.
  intros P.
  apply (@extract_paragraphs_ignores_fallback P sample_body (PStr "summary")).
  vm_compute. lia.
Defined.

(** ** Paragraphs to content *)

Section ContentCoverage.
Import Xml.
#[local] Arguments String.append !_ _ / : simpl nomatch.

Lemma unescape_escape_char c rest :
  unescape (Text.escape_char c +:+ rest) = String c (unescape rest).
Proof.
  unfold Text.escape_char, unescape.
  destruct (Ascii.eqb_spec c "&") as [->|Hamp]; [reflexivity|].
  destruct (Ascii.eqb_spec c "<") as [->|Hlt]; [reflexivity|].
  destruct (Ascii.eqb_spec c ">") as [->|Hgt]; [reflexivity|].
  destruct (Ascii.eqb_spec c "034") as [->|Hdq]; [reflexivity|].
  destruct (Ascii.eqb_spec c "'") as [->|Hsq]; [reflexivity|].
  apply Ascii.eqb_neq in Hamp. cbn. by rewrite Hamp.
Qed.

(** Escaping loses nothing: the text can be read back. *)
Lemma unescape_escape s : unescape (Text.escape s) = s.
Proof.
  induction s as [|c s IH]; [done|].
  change (Text.escape (String c s)) with (Text.escape_char c +:+ Text.escape s).
  by rewrite unescape_escape_char, IH.
Qed.

Lemma escape_inj a b : Text.escape a = Text.escape b -> a = b.
Proof.
  intros Heq. by rewrite <- (unescape_escape a), <- (unescape_escape b), Heq.
Qed.

(** Two texts without [<], each followed by a [<], agree when the wholes
    do. *)
Lemma split_at_lt a b u v :
  no_lt a = true -> no_lt b = true ->
  a +:+ String "<" u = b +:+ String "<" v -> a = b /\ u = v.
Proof.
  revert b. induction a as [|x a IH]; intros [|y b] Ha Hb Heq; cbn in *.
  - by injection Heq as ->.
  - injection Heq as <- _. by apply andb_prop in Hb as [? _].
  - injection Heq as -> _. by apply andb_prop in Ha as [? _].
  - injection Heq as -> Heq.
    apply andb_prop in Ha as [_ Ha]. apply andb_prop in Hb as [_ Hb].
    destruct (IH b Ha Hb Heq) as [-> ->]. done.
Qed.

(** X10: [paragraphs_to_html] returns exactly when every paragraph is a
    string; anything else in the list makes it raise [AttributeError]. *)
Theorem paragraphs_to_html_returns_iff paragraphs :
  ((exists html, paragraphs_to_html paragraphs = inr html)
   <-> Forall is_PStr paragraphs)
  /\ (forall e, paragraphs_to_html paragraphs = inl e -> e = AttributeError).
Proof.
  induction paragraphs as [|v l [[IH1 IH2] IH3]]; cbn [paragraphs_to_html].
  { split; [split; [done | eauto] | done]. }
  unfold html_escape.
  destruct v as [| | |text| |];
    try (split; [split; [by intros [? ?] | by inversion 1]
                | by intros ? [= <-]]).
  destruct (paragraphs_to_html l) as [e|html].
  - split; [split|].
    + by intros [? ?].
    + inversion 1 as [|? ? _ Hl]; subst. by destruct (IH2 Hl).
    + intros e' [= <-]. by apply IH3.
  - split; [split|]; [|eauto|done].
    intros _. constructor; [done|]. apply IH1. eauto.
Qed.

(** X11: the content tells the paragraphs apart: two lists of paragraphs
    with the same content are the same list. *)
Theorem paragraphs_to_html_inj l1 l2 html :
  paragraphs_to_html l1 = inr html ->
  paragraphs_to_html l2 = inr html ->
  l1 = l2.
Proof.
  revert l2 html. induction l1 as [|v1 l1 IH]; intros [|v2 l2] html;
    cbn [paragraphs_to_html]; unfold html_escape.
  - done.
  - intros [= <-]. destruct v2; try done.
    by destruct (paragraphs_to_html l2).
  - destruct v1; try done. destruct (paragraphs_to_html l1); [done|].
    by intros [= <-].
  - destruct v1 as [| | |t1| |]; try done.
    destruct v2 as [| | |t2| |];
      try by (destruct (paragraphs_to_html l1); intros; discriminate).
    destruct (paragraphs_to_html l1) as [|h1] eqn:H1; [done|].
    destruct (paragraphs_to_html l2) as [|h2] eqn:H2;
      [by intros _ [=]|].
    intros [= <-] [= Heq]. cbn in Heq.
    apply split_at_lt in Heq as [Hesc Heq]; [|apply escape_no_lt..].
    injection Heq as <-. apply escape_inj in Hesc as ->.
    f_equal. by apply (IH l2 h2).
Qed.

End ContentCoverage.

Section PipelineContent.
Context `{platform}.

Lemma extract_paragraphs_nonempty body fallback_text :
  extract_paragraphs body fallback_text <> [].
Proof.
  intros Hnil. apply (f_equal length) in Hnil. revert Hnil.
  unfold extract_paragraphs. rewrite length_take.
  repeat match goal with
         | |- context [if ?b then _ else _] => destruct b eqn:?
         end;
    rewrite ?length_app in *; cbn [length] in *;
    rewrite ?Nat.ltb_lt, ?Nat.ltb_ge in *; lia.
Qed.

(** X12: extraction and conversion compose.  For a fallback that is a
    string or falsy, the snippets of any body convert to a content, which
    is not empty and does not hold the end of a CDATA section. *)
Theorem content_of_extract body fallback_text :
  (truthy fallback_text = true -> is_PStr fallback_text) ->
  exists html,
    paragraphs_to_html (extract_paragraphs body fallback_text) = inr html
    /\ html <> ""
    /\ Xml.has_cdata_end html = false.
Proof.
  intros Hfb.
  destruct (paragraphs_to_html_strings (extract_paragraphs body fallback_text))
    as [html Hhtml]; [by apply extract_paragraphs_strings|].
  exists html. split; [done|]. split.
  - pose proof (extract_paragraphs_nonempty body fallback_text) as Hne.
    destruct (extract_paragraphs body fallback_text) as [|v l]; [done|].
    cbn [paragraphs_to_html] in Hhtml. unfold html_escape in Hhtml.
    destruct v; try done. destruct (paragraphs_to_html l); [done|].
    by injection Hhtml as <-.
  - by eapply paragraphs_to_html_no_cdata_end.
Qed.

End PipelineContent.

Lemma paragraphs_to_html_inj_witness :
  [PStr "a<b"; PStr "c"] = [PStr "a<b"; PStr "c"].
Proof.
  apply (paragraphs_to_html_inj [PStr "a<b"; PStr "c"] [PStr "a<b"; PStr "c"]
           "<p>a&lt;b</p><p>c</p>"); reflexivity.
Defined.

Lemma content_of_extract_witness :
  let P := sample_platform offline in
  exists html,
    paragraphs_to_html (@extract_paragraphs P sample_body (PStr "summary")) =
      inr html
    /\ html <> ""
    /\ Xml.has_cdata_end html = false.
Proof.
  intros P. apply (@content_of_extract P sample_body (PStr "summary")).
  intros _. exact I.
Defined.

(** ** Feed renderer: failure, order, the file *)

Section RendererCoverage.
Context `{platform}.

Lemma items_parts_returns_iff items :
  ((exists parts, items_parts items = inr parts)
   <-> Forall (fun it => is_PStr (item_title it) /\ is_PStr (item_link it)) items)
  /\ (forall e, items_parts items = inl e -> e = AttributeError).
Proof.
  induction items as [|it items [[IH1 IH2] IH3]]; cbn [items_parts].
  { split; [split; [done | eauto] | done]. }
  unfold item_parts, html_escape.
  destruct (item_title it) as [| | |title| |] eqn:Htitle;
    try (split; [split; [by intros [? ?] | by inversion 1 as [|? ? [? ?]]; subst; cbn in *; rewrite ?Htitle, ?Hlink in *]
                | by intros ? [= <-]]).
  destruct (item_link it) as [| | |link| |] eqn:Hlink;
    try (split; [split; [by intros [? ?] | by inversion 1 as [|? ? [? ?]]; subst; cbn in *; rewrite ?Htitle, ?Hlink in *]
                | by intros ? [= <-]]).
  destruct (items_parts items) as [e|more].
  - split; [split|].
    + by intros [? ?].
    + inversion 1 as [|? ? _ Hl]; subst. by destruct (IH2 Hl).
    + intros e' [= <-]. by apply IH3.
  - split; [split|]; [|eauto|done].
    intros _. constructor; [by rewrite Htitle, Hlink|]. apply IH1. eauto.
Qed.

(** X13: [build_rss] returns a document exactly when the title and the
    link of every item are strings, and raises [AttributeError]
    otherwise; either way it reads the clock once and changes nothing
    else. *)
Theorem build_rss_returns_iff items w r w' :
  build_rss items w = (r, w') ->
  w' = {| requests := requests w; draws := draws w; ticks := S (ticks w);
          slept := slept w; fs := fs w; stdout := stdout w |}
  /\ ((exists doc, r = inr doc)
      <-> Forall (fun it => is_PStr (item_title it) /\ is_PStr (item_link it))
            items)
  /\ (forall e, r = inl e -> e = AttributeError).
Proof.
  unfold build_rss. run_step.
  destruct (items_parts_returns_iff items) as [Hiff Herr].
  destruct (items_parts items) as [e|parts] eqn:Hparts; intros [= <- <-].
  - split; [done|]. split; [|by intros ? [= <-]; apply Herr].
    split; [by intros [? ?]|]. intros Hall. apply Hiff in Hall as [? ?]. done.
  - split; [done|]. split; [|done].
    split; [|eauto]. intros _. apply Hiff. eauto.
Qed.

Lemma items_parts_app l1 l2 parts :
  items_parts (l1 ++ l2) = inr parts ->
  exists p1 p2,
    items_parts l1 = inr p1 /\ items_parts l2 = inr p2 /\ parts = p1 ++ p2.
Proof.
  revert parts. induction l1 as [|it l1 IH]; intros parts; cbn [app items_parts].
  { intros Hparts. by exists [], parts. }
  destruct (item_parts it) as [e|block]; [done|].
  destruct (items_parts (l1 ++ l2)) as [e|more]; [done|].
  intros [= <-]. destruct (IH more eq_refl) as (p1 & p2 & -> & -> & ->).
  exists (block ++ p1), p2. by rewrite <- app_assoc.
Qed.

Lemma items_parts_length items parts :
  items_parts items = inr parts -> length parts = (8 * length items)%nat.
Proof.
  revert parts. induction items as [|it items IH]; intros parts;
    cbn [items_parts].
  { by intros [= <-]. }
  destruct (item_parts it) as [e|block] eqn:Hblock; [done|].
  destruct (items_parts items) as [e|more]; [done|].
  intros [= <-]. rewrite length_app, (IH more eq_refl).
  unfold item_parts in Hblock.
  destruct (html_escape (item_title it)); [done|].
  destruct (html_escape (item_link it)); [done|].
  injection Hblock as <-. cbn [length]. lia.
Qed.

(** X14: the items are rendered in the order given, eight lines each.
    The document is the seven lines of the channel head, the lines of the
    items one block after the other, and the two closing lines: for items
    [l1 ++ l2] the lines of [l1] come first. *)
Theorem build_rss_in_order l1 l2 w doc w' :
  build_rss (l1 ++ l2) w = (inr doc, w') ->
  exists p1 p2,
    items_parts l1 = inr p1
    /\ items_parts l2 = inr p2
    /\ length p1 = (8 * length l1)%nat
    /\ length p2 = (8 * length l2)%nat
    /\ doc = Text.join LF
               (channel_head (format_datetime (datetime_now (ticks w)))
                  ++ p1 ++ p2 ++ channel_tail).
Proof.
  intros Hrun. apply build_rss_inv in Hrun as (parts & Hparts & -> & _).
  apply items_parts_app in Hparts as (p1 & p2 & H1 & H2 & ->).
  exists p1, p2. repeat split; try done.
  - by apply items_parts_length.
  - by apply items_parts_length.
  - by rewrite <- app_assoc.
Qed.


End RendererCoverage.

Lemma build_rss_returns_iff_witness :
  let P := sample_platform offline in
  let run := @build_rss P [sample_item 1] w0 in
  run.2 = {| requests := 0; draws := 0; ticks := 1; slept := []; fs := ∅;
             stdout := [] |}
  /\ ((exists doc, run.1 = inr doc)
      <-> Forall (fun it => is_PStr (item_title it) /\ is_PStr (item_link it))
            [sample_item 1])
  /\ (forall e, run.1 = inl e -> e = AttributeError).
Proof.
  intros P run.
  apply (@build_rss_returns_iff P [sample_item 1] w0 run.1 run.2).
  vm_compute. reflexivity.
Defined.

Lemma build_rss_in_order_witness :
  let P := sample_platform offline in
  exists p1 p2,
    items_parts [sample_item 1] = inr p1
    /\ items_parts [sample_item 2] = inr p2
    /\ length p1 = 8%nat
    /\ length p2 = 8%nat
    /\ from_inr "" (@build_rss P [sample_item 1; sample_item 2] w0).1 =
         Text.join LF
           (channel_head (@format_datetime P (@datetime_now P 0%nat))
              ++ p1 ++ p2 ++ channel_tail).
Proof.
  intros P.
  apply (@build_rss_in_order P [sample_item 1] [sample_item 2] w0
           (from_inr "" (@build_rss P [sample_item 1; sample_item 2] w0).1)
           (@build_rss P [sample_item 1; sample_item 2] w0).2).
  vm_compute. reflexivity.
Defined.


(** ** State file: round trip, new identifiers, failures *)

Section StateCoverage.
Context `{platform}.


Lemma filter_not_in_sublist previous l new_ids :
  filter_not_in previous l = inr new_ids ->
  new_ids `sublist_of` l
  /\ forall v, v ∈ new_ids <->
       v ∈ l /\ exists k, hash_key v = inr k /\ k ∉ previous.
Proof.
  revert new_ids. induction l as [|x l IH]; intros new_ids; cbn [filter_not_in].
  { intros [= <-]. split; [done|]. intros v. split.
    - by intros ?%elem_of_nil.
    - by intros [?%elem_of_nil _]. }
  unfold not_in_set.
  destruct (hash_key x) as [e|k] eqn:Hk; [done|].
  destruct (filter_not_in previous l) as [e|vs]; [done|].
  destruct (IH vs eq_refl) as [Hsub Hin].
  case_bool_decide as Hprev; cbn [negb]; intros [= <-].
  - split; [by apply sublist_cons|]. intros v. rewrite Hin, elem_of_cons.
    split; [naive_solver|]. intros [[->|Hv] (k' & Hk' & Hnot)]; [|eauto].
    congruence.
  - split; [by apply sublist_skip|]. intros v. rewrite !elem_of_cons, Hin.
    split; [|naive_solver]. intros [->|[Hv Hkey]]; [|eauto]. eauto.
Qed.

(** X17: the new identifiers are the identifiers of the cycle, in their
    order, that are not among the [latest_ids] of the state loaded: an
    identifier is new exactly when it belongs to the cycle and its key is
    not in that set. *)
Theorem update_state_new_ids path items w new_ids w' :
  update_state path items w = (inr new_ids, w') ->
  exists (state : gmap string pyval) (previous : gset hkey),
    load_state path w = (inr (PDict state), w)
    /\ py_set (default (PList []) (state !! "latest_ids")) = inr previous
    /\ new_ids `sublist_of` (item_id <$> items)
    /\ forall v, v ∈ new_ids <->
         v ∈ (item_id <$> items)
         /\ exists k, hash_key v = inr k /\ k ∉ previous.
Proof.
  intros Hrun.
  apply update_state_inv in Hrun as (state & previous & Hload & Hset & Hnew & _).
  exists state, previous.
  apply filter_not_in_sublist in Hnew as [Hsub Hin]. done.
Qed.

Lemma hash_keys_elem l keys v k :
  hash_keys l = inr keys -> v ∈ l -> hash_key v = inr k -> k ∈ keys.
Proof.
  revert keys. induction l as [|x l IH]; intros keys Hkeys Hin Hk.
  { by apply elem_of_nil in Hin. }
  cbn [hash_keys] in Hkeys.
  destruct (hash_key x) as [e|kx] eqn:Hx; [done|].
  destruct (hash_keys l) as [e|ks]; [done|].
  injection Hkeys as <-.
  apply elem_of_cons in Hin as [->|Hin].
  - rewrite Hx in Hk. injection Hk as ->. apply elem_of_cons. by left.
  - apply elem_of_cons. right. by apply (IH ks).
Qed.

(** X18: a cycle whose identifiers all belonged to the cycle before
    finds nothing new; in particular the same articles twice in a row
    give an empty list the second time. *)
Theorem update_state_nothing_new path items1 items2 w new1 w1 w1' new2 w2 :
  update_state path items1 w = (inr new1, w1) ->
  fs w1' !! path = fs w1 !! path ->
  update_state path items2 w1' = (inr new2, w2) ->
  (forall v, v ∈ (item_id <$> items2) -> v ∈ (item_id <$> items1)) ->
  new2 = [].
Proof.
  intros Hfirst Hsame Hsecond Hincl.
  apply update_state_inv in Hfirst as (st1 & prev1 & _ & _ & Hnew1 & Hfs1).
  apply filter_not_in_keys in Hnew1 as (keys1 & _ & Hkeys1 & _).
  apply update_state_inv in Hsecond as (st2 & prev2 & Hload & Hset & Hnew2 & _).
  rewrite Hfs1, lookup_insert_eq in Hsame.
  rewrite (load_state_json _ _ _ _ _ Hsame) in Hload.
  inversion Hload; subst st2; clear Hload.
  rewrite lookup_insert_ne, lookup_insert_eq in Hset by done.
  cbn in Hset. rewrite Hkeys1 in Hset. inversion Hset; subst prev2.
  apply filter_not_in_sublist in Hnew2 as [_ Hin].
  destruct new2 as [|v new2]; [done|]. exfalso.
  destruct (proj1 (Hin v)) as [Hv (k & Hk & Hnot)]; [by left|].
  apply Hnot, elem_of_list_to_set.
  eapply hash_keys_elem; [exact Hkeys1 | by apply Hincl | exact Hk].
Qed.


End StateCoverage.

Lemma update_state_new_ids_witness :
  let P := sample_platform offline in
  exists (state : gmap string pyval) (previous : gset hkey),
    @load_state P "state.json" w0 = (inr (PDict state), w0)
    /\ py_set (default (PList []) (state !! "latest_ids")) = inr previous
    /\ [PInt 1; PInt 2] `sublist_of` (item_id <$> (sample_item <$> [1; 2]))
    /\ forall v, v ∈ [PInt 1; PInt 2] <->
         v ∈ (item_id <$> (sample_item <$> [1; 2]))
         /\ exists k, hash_key v = inr k /\ k ∉ previous.
Proof.
  intros P.
  eapply (@update_state_new_ids P "state.json" (sample_item <$> [1; 2]) w0).
  vm_compute. reflexivity.
Defined.

Lemma update_state_nothing_new_witness :
  let P := sample_platform offline in
  let w1 := (@update_state P "state.json" (sample_item <$> [1; 2; 3]) w0).2 in
  (@update_state P "state.json" (sample_item <$> [3; 1]) w1).1 = inr [].
Proof.
  intros P w1.
  assert (exists w2, @update_state P "state.json" (sample_item <$> [3; 1]) w1 =
                       (inr (from_inr [PNone]
                               (@update_state P "state.json"
                                  (sample_item <$> [3; 1]) w1).1), w2))
    as [w2 Hsecond] by (eexists; vm_compute; reflexivity).
  rewrite Hsecond. cbn [fst]. apply (f_equal (@inr exn (list pyval))).
  eapply (@update_state_nothing_new P "state.json"
            (sample_item <$> [1; 2; 3]) (sample_item <$> [3; 1]) w0).
  - vm_compute. reflexivity.
  - reflexivity.
  - exact Hsecond.
  - intros v Hv. vm_compute in Hv.
    apply elem_of_cons in Hv as [->|Hv].
    { vm_compute. apply elem_of_cons. right. apply elem_of_cons. right.
      apply elem_of_cons. by left. }
    apply elem_of_cons in Hv as [->|Hv].
    { vm_compute. apply elem_of_cons. by left. }
    by apply elem_of_nil in Hv.
Defined.


(** ** Collecting the items *)

Section CollectorCoverage.
Context `{platform}.

Lemma fetch_json_frame url retries w r w' :
  fetch_json url retries w = (r, w') ->
  (requests w + 1 <= requests w' <= requests w + retries + 1)%nat
  /\ fs w' = fs w /\ stdout w' = stdout w.
Proof.
  unfold fetch_json. intros Hrun.
  apply fetch_json_loop_effects in Hrun
    as (new & _ & _ & Hr1 & Hr0 & _ & _ & Hf & Ho & _).
  repeat split; first [done | lia].
Qed.

Lemma pub_date_of_frame published w r w' :
  pub_date_of published w = (r, w') ->
  requests w' = requests w /\ fs w' = fs w /\ stdout w' = stdout w.
Proof.
  unfold pub_date_of. run_step.
  destruct (truthy published).
  - destruct published as [| | |p| |]; try (by intros [= <- <-]).
    destruct (fromisoformat _); by intros [= <- <-].
  - by intros [= <- <-].
Qed.

Lemma collect_item_frame article w r w' :
  collect_item article w = (r, w') ->
  (requests w <= requests w' <= requests w + 4)%nat
  /\ fs w' = fs w /\ stdout w' = stdout w.
Proof.
  unfold collect_item. run_step. intros Hrun.
  destruct (getitem article "id") as [e|article_id].
  { injection Hrun as <- <-. repeat split; lia. }
  destruct (fetch_json _ _ w) as [[e|detail] w1] eqn:Hfetch;
    apply fetch_json_frame in Hfetch as (Hreq & Hfs & Hout); unfold RETRIES in *.
  { injection Hrun as <- <-. repeat split; first [done | lia]. }
  repeat match type of Hrun with
         | context [match ?x with _ => _ end] =>
             lazymatch x with
             | pub_date_of _ _ => fail
             | _ => destruct x; try (injection Hrun as <- <-;
                                     repeat split; first [done | lia])
             end
         end;
  destruct (pub_date_of _ w1) as [[err|date] w2] eqn:Hdate;
  apply pub_date_of_frame in Hdate as (Hreq2 & Hfs2 & Hout2);
  repeat match type of Hrun with
         | context [match ?x with _ => _ end] => destruct x
         end;
  injection Hrun as <- <-; repeat split; first [congruence | lia].
Qed.

Lemma mapM_frame {A B} (f : A -> M B) n :
  (forall x w r w', f x w = (r, w') ->
     (requests w <= requests w' <= requests w + n)%nat
     /\ fs w' = fs w /\ stdout w' = stdout w) ->
  forall l w r w', mapM f l w = (r, w') ->
    (requests w <= requests w' <= requests w + n * length l)%nat
    /\ fs w' = fs w /\ stdout w' = stdout w.
Proof.
  intros Hf. induction l as [|x l IH]; intros w r w'; cbn [mapM length]; run_step.
  { intros [= <- <-]. repeat split; lia. }
  destruct (f x w) as [[e|y] w1] eqn:Hx; apply Hf in Hx as (Hr & Hfs & Ho).
  { intros [= <- <-]. repeat split; first [done | lia]. }
  destruct (mapM f l w1) as [[e'|ys] w2] eqn:Hl; apply IH in Hl as (Hr2 & Hfs2 & Ho2);
    intros [= <- <-]; repeat split; first [congruence | lia].
Qed.

Lemma mapM_Forall2 {A B} (f : A -> M B) (R : A -> B -> Prop) l :
  (forall x w y w', f x w = (inr y, w') -> R x y) ->
  forall w ys w', mapM f l w = (inr ys, w') -> Forall2 R l ys.
Proof.
  intros Hf. induction l as [|x l IH]; intros w ys w'; cbn [mapM]; run_step.
  { intros [= <- _]. constructor. }
  destruct (f x w) as [[e|y] w1] eqn:Hx; [done|].
  destruct (mapM f l w1) as [[e'|ys'] w2] eqn:Hl; [done|].
  intros [= <- _]. constructor; [by eapply Hf | by eapply IH].
Qed.

Lemma mapM_raises {A B} (f : A -> M B) l x :
  x ∈ l ->
  (forall w, exists e w', f x w = (inl e, w')) ->
  forall w, exists e w', mapM f l w = (inl e, w').
Proof.
  intros Hin Hx. induction l as [|y l IH]; intros w.
  { by apply elem_of_nil in Hin. }
  cbn [mapM]. run_step.
  destruct (f y w) as [[e|b] w1] eqn:Hy; [eauto|].
  apply elem_of_cons in Hin as [->|Hin].
  { destruct (Hx w) as (e & w' & Hfail). congruence. }
  destruct (IH Hin w1) as (e & w' & ->). eauto.
Qed.

Lemma collect_item_id article w it w' :
  collect_item article w = (inr it, w') ->
  getitem article "id" = inr (item_id it).
Proof.
  unfold collect_item. run_step. intros Hrun.
  destruct (getitem article "id") as [e|article_id]; [done|].
  repeat match type of Hrun with
         | context [match ?x with _ => _ end] =>
             destruct x; try discriminate Hrun
         end.
  by injection Hrun as <- _.
Qed.

Lemma slice_to_length {A} (l : list A) (stop : Z) :
  0 <= stop -> length (slice_to l stop) = (Z.to_nat stop `min` length l)%nat.
Proof.
  intros Hstop. unfold slice_to.
  destruct (Z.leb_spec 0 stop); [|lia]. by rewrite length_take.
Qed.

(** X20: any payload that counts as false, not the empty list only
    ([None], an empty object, an empty string, zero), ends the cycle with
    the no-articles error after the first call: no article is asked for,
    nothing is written and nothing is printed. *)
Theorem refresh_falsy_payload limit top_days output state_file w top w1 :
  fetch_json (TOP_URL_TEMPLATE top_days limit) RETRIES w = (inr top, w1) ->
  truthy top = false ->
  collect_items limit top_days w =
    (inl (RuntimeError "No articles returned from the DEV.to API."), w1)
  /\ refresh limit top_days output state_file w =
       (inl (RuntimeError "No articles returned from the DEV.to API."), w1)
  /\ (requests w1 <= requests w + 4)%nat
  /\ fs w1 = fs w /\ stdout w1 = stdout w.
Proof.
  intros Hfetch Hfalse.
  assert (collect_items limit top_days w =
            (inl (RuntimeError "No articles returned from the DEV.to API."), w1))
    as Hcollect.
  { unfold collect_items. run_step. by rewrite Hfetch, Hfalse. }
  split; [done|]. split.
  { unfold refresh. run_step. by rewrite Hcollect. }
  apply fetch_json_frame in Hfetch as (Hreq & Hfs & Hout). unfold RETRIES in *.
  repeat split; first [done | lia].
Qed.

(** X21: a truthy payload that is not a list (an error object, a number,
    a text) fails the cycle as well, for every limit [main] accepts,
    right after the call that fetched it: no article is asked for and
    nothing is written. *)
Theorem collect_items_not_a_list limit top_days w top w1 :
  fetch_json (TOP_URL_TEMPLATE top_days limit) RETRIES w = (inr top, w1) ->
  truthy top = true ->
  (forall l, top <> PList l) ->
  0 < limit ->
  exists e, collect_items limit top_days w = (inl e, w1).
Proof.
  intros Hfetch Htrue Hlist Hlimit.
  unfold collect_items. run_step. rewrite Hfetch, Htrue. cbn [negb].
  destruct top as [|b|z|s|l|d]; cbn [sliced_items]; eauto.
  - destruct s as [|c s]; [done|].
    unfold slice_to. destruct (Z.leb_spec 0 limit); [|lia].
    destruct (Z.to_nat limit) as [|n] eqn:Hn; [lia|].
    cbn. run_step. cbn. eauto.
  - by destruct (Hlist l).
Qed.

(** X22: the items of a cycle are the articles of the payload up to the
    limit, one item per article and in the order of the payload, each
    with the identifier of its article; of a list of articles the feed
    holds the first [limit], or all of them when there are fewer. *)
Theorem collect_items_count limit top_days w items w' :
  collect_items limit top_days w = (inr items, w') ->
  exists top articles w1,
    fetch_json (TOP_URL_TEMPLATE top_days limit) RETRIES w = (inr top, w1)
    /\ truthy top = true
    /\ sliced_items top limit = inr articles
    /\ Forall2 (fun article it => getitem article "id" = inr (item_id it))
         articles items
    /\ (0 <= limit ->
        (length items <= Z.to_nat limit)%nat
        /\ forall l, top = PList l ->
             length items = (Z.to_nat limit `min` length l)%nat).
Proof.
  unfold collect_items. run_step. intros Hrun.
  destruct (fetch_json _ _ w) as [[e|top] w1]; [done|].
  destruct (truthy top) eqn:Htrue; [|done]. cbn [negb] in Hrun.
  destruct (sliced_items top limit) as [e|articles] eqn:Hslice; [done|].
  exists top, articles, w1. repeat split; try done.
  - eapply mapM_Forall2; [|exact Hrun].
    intros article w2 it w3. apply collect_item_id.
  - apply mapM_Forall2 with (R := fun _ _ => True) in Hrun; [|done].
    apply Forall2_length in Hrun. rewrite <- Hrun.
    destruct top; cbn in Hslice; try done; injection Hslice as <-;
      rewrite ?length_fmap, slice_to_length by done; lia.
  - intros l ->. cbn in Hslice. injection Hslice as <-.
    apply mapM_Forall2 with (R := fun _ _ => True) in Hrun; [|done].
    apply Forall2_length in Hrun. rewrite <- Hrun. by apply slice_to_length.
Qed.

(** X23: collecting the items writes no file and prints nothing, however
    it ends, and it makes at least one and at most [4 * (limit + 1)]
    requests: up to four for the list and up to four for each article. *)
Theorem collect_items_effects limit top_days w r w' :
  0 <= limit ->
  collect_items limit top_days w = (r, w') ->
  (requests w + 1 <= requests w' <= requests w + 4 * (Z.to_nat limit + 1))%nat
  /\ fs w' = fs w /\ stdout w' = stdout w.
Proof.
  intros Hlimit. unfold collect_items. run_step. intros Hrun.
  destruct (fetch_json _ _ w) as [[e|top] w1] eqn:Hfetch;
    apply fetch_json_frame in Hfetch as (Hreq & Hfs & Hout); unfold RETRIES in *.
  { injection Hrun as <- <-. repeat split; first [done | lia]. }
  destruct (negb (truthy top)).
  { injection Hrun as <- <-. repeat split; first [done | lia]. }
  destruct (sliced_items top limit) as [e|articles] eqn:Hslice.
  { injection Hrun as <- <-. repeat split; first [done | lia]. }
  assert (length articles <= Z.to_nat limit)%nat as Hlen.
  { destruct top; cbn in Hslice; try done; injection Hslice as <-;
      rewrite ?length_fmap, slice_to_length by done; lia. }
  apply (mapM_frame collect_item 4 collect_item_frame) in Hrun
    as (Hreq2 & Hfs2 & Hout2).
  repeat split; first [congruence | nia].
Qed.

(** X24: one article of the list without an identifier (or one that is
    not an object) fails the whole cycle, whatever the other articles
    are: the feed is not written, the state is not touched and nothing is
    printed. *)
Theorem refresh_article_without_id limit top_days output state_file
    w l w1 article e0 :
  fetch_json (TOP_URL_TEMPLATE top_days limit) RETRIES w = (inr (PList l), w1) ->
  article ∈ slice_to l limit ->
  getitem article "id" = inl e0 ->
  exists e w',
    refresh limit top_days output state_file w = (inl e, w')
    /\ fs w' = fs w /\ stdout w' = stdout w.
Proof.
  intros Hfetch Hin Hid.
  assert (truthy (PList l) = true) as Htrue.
  { destruct l; [|done]. unfold slice_to in Hin.
    destruct (0 <=? limit); rewrite take_nil in Hin;
      by apply elem_of_nil in Hin. }
  destruct (mapM_raises collect_item _ _ Hin) with (w := w1) as (e & w' & Hmap).
  { intros w2. unfold collect_item. run_step. rewrite Hid. eauto. }
  assert (collect_items limit top_days w = (inl e, w')) as Hcollect.
  { unfold collect_items. run_step. by rewrite Hfetch, Htrue. }
  exists e, w'. split.
  { unfold refresh. run_step. by rewrite Hcollect. }
  apply fetch_json_frame in Hfetch as (_ & Hfs & Hout).
  apply (mapM_frame collect_item 4 collect_item_frame) in Hmap
    as (_ & Hfs2 & Hout2).
  split; congruence.
Qed.

End CollectorCoverage.

Lemma refresh_falsy_payload_witness :
  let P := sample_platform (always (respond 200 (PDict ∅))) in
  let w1 := {| requests := 1; draws := 0; ticks := 0; slept := []; fs := ∅;
               stdout := [] |} in
  @collect_items P 20 30 w0 =
    (inl (RuntimeError "No articles returned from the DEV.to API."), w1)
  /\ @refresh P 20 30 "feed.xml" "state.json" w0 =
       (inl (RuntimeError "No articles returned from the DEV.to API."), w1)
  /\ (requests w1 <= requests w0 + 4)%nat
  /\ fs w1 = fs w0 /\ stdout w1 = stdout w0.
Proof.
  intros P w1.
  apply (@refresh_falsy_payload P 20 30 "feed.xml" "state.json" w0 (PDict ∅) w1).
  - vm_compute. reflexivity.
  - reflexivity.
Defined.

Lemma collect_items_not_a_list_witness :
  let P := sample_platform
             (always (respond 200 (PDict {[ "error" := PStr "not found" ]}))) in
  exists e,
    @collect_items P 20 30 w0 =
      (inl e, {| requests := 1; draws := 0; ticks := 0; slept := []; fs := ∅;
                 stdout := [] |}).
Proof.
  intros P.
  apply (@collect_items_not_a_list P 20 30 w0
           (PDict {[ "error" := PStr "not found" ]})).
  - vm_compute. reflexivity.
  - vm_compute. reflexivity.
  - discriminate.
  - lia.
Defined.

Lemma collect_items_count_witness :
  let P := sample_platform sample_net in
  exists top articles w1,
    @fetch_json P (@TOP_URL_TEMPLATE 30 20) RETRIES w0 = (inr top, w1)
    /\ truthy top = true
    /\ sliced_items top 20 = inr articles
    /\ Forall2 (fun article it => getitem article "id" = inr (item_id it))
         articles (from_inr [] (@collect_items P 20 30 w0).1)
    /\ (0 <= 20 ->
        (length (from_inr [] (@collect_items P 20 30 w0).1) <= Z.to_nat 20)%nat
        /\ forall l, top = PList l ->
             length (from_inr [] (@collect_items P 20 30 w0).1) =
               (Z.to_nat 20 `min` length l)%nat).
Proof.
  intros P.
  eapply (@collect_items_count P 20 30 w0).
  vm_compute. reflexivity.
Defined.

Lemma collect_items_effects_witness :
  let P := sample_platform sample_net in
  let run := @collect_items P 20 30 w0 in
  (requests w0 + 1 <= requests run.2 <= requests w0 + 4 * (Z.to_nat 20 + 1))%nat
  /\ fs run.2 = fs w0 /\ stdout run.2 = stdout w0.
Proof.
  intros P run.
  apply (@collect_items_effects P 20 30 w0 run.1 run.2).
  - lia.
  - vm_compute. reflexivity.
Defined.

Lemma refresh_article_without_id_witness :
  let net n (url : string) :=
    if (n =? 0)%nat then inr (respond 200 (PList [sample_article; PDict ∅]))
    else sample_net n url in
  let P := sample_platform net in
  exists e w',
    @refresh P 20 30 "feed.xml" "state.json" w0 = (inl e, w')
    /\ fs w' = fs w0 /\ stdout w' = stdout w0.
Proof.
  intros net P.
  eapply (@refresh_article_without_id P 20 30 "feed.xml" "state.json" w0
            [sample_article; PDict ∅] _ (PDict ∅) (KeyError "id")).
  - vm_compute. reflexivity.
  - vm_compute. apply elem_of_cons. right. apply elem_of_cons. by left.
  - reflexivity.
Defined.

(** ** A whole cycle *)

Section RefreshCoverage.
Context `{platform}.

Lemma collect_items_frame limit top_days w r w' :
  collect_items limit top_days w = (r, w') ->
  fs w' = fs w /\ stdout w' = stdout w.
Proof.
  unfold collect_items. run_step. intros Hrun.
  destruct (fetch_json _ _ w) as [[e|top] w1] eqn:Hfetch;
    apply fetch_json_frame in Hfetch as (_ & Hfs & Hout).
  { by injection Hrun as <- <-. }
  destruct (negb (truthy top)).
  { by injection Hrun as <- <-. }
  destruct (sliced_items top limit) as [e|articles].
  { by injection Hrun as <- <-. }
  apply (mapM_frame collect_item 4 collect_item_frame) in Hrun
    as (_ & Hfs2 & Hout2).
  split; congruence.
Qed.

Lemma write_feed_inv output_path items w r w' :
  write_feed output_path items w = (r, w') ->
  stdout w' = stdout w
  /\ requests w' = requests w
  /\ match r with
     | inl e => fs w' = fs w
     | inr _ => exists doc,
         (build_rss items w).1 = inr doc
         /\ fs w' = <[output_path := TextFile doc]> (fs w)
     end.
Proof.
  unfold write_feed, build_rss. run_step.
  destruct (items_parts items) as [e|parts]; intros [= <- <-]; cbn; eauto.
Qed.



(** X26: the feed is written before the state is read.  When the items
    are collected and rendered but the state file cannot be decoded, the
    cycle fails with the decoding error although the new feed is already
    in place; the state file is as it was and nothing is printed. *)
Theorem refresh_undecodable_state limit top_days output state_file
    w items w1 doc text :
  collect_items limit top_days w = (inr items, w1) ->
  (build_rss items w1).1 = inr doc ->
  output <> state_file ->
  fs w !! state_file = Some (TextFile text) ->
  json_load text = None ->
  exists w',
    refresh limit top_days output state_file w = (inl JSONDecodeError, w')
    /\ fs w' = <[output := TextFile doc]> (fs w)
    /\ fs w' !! state_file = Some (TextFile text)
    /\ stdout w' = stdout w.
Proof.
  intros Hcollect Hdoc Hne Hfile Hbad.
  pose proof (collect_items_frame _ _ _ _ _ Hcollect) as [Hfs Hout].
  unfold refresh. run_step. rewrite Hcollect.
  unfold write_feed. run_step.
  destruct (build_rss items w1) as [[e|doc'] w2] eqn:Hbuild; [done|].
  cbn in Hdoc. injection Hdoc as ->.
  assert (fs w2 = fs w1 /\ stdout w2 = stdout w1) as [Hfs2 Hout2].
  { revert Hbuild. unfold build_rss. run_step.
    destruct (items_parts items); [done|]. by intros [= _ <-]. }
  unfold update_state, load_state, try_except_FileNotFoundError, load_json.
  run_step. rewrite lookup_insert_ne by done. rewrite Hfs2, Hfs, Hfile. cbn.
  rewrite Hbad. cbn. eexists. split; [reflexivity|]. cbn.
  split; [done|]. split; [by rewrite lookup_insert_ne|]. congruence.
Qed.

(** X27: a cycle that returns has written two files, the feed and then
    the state, and printed one line; the number it returns is the number
    of items in the feed, the state holds their identifiers, and the line
    tells how many of them were not in the state before. *)
Theorem refresh_returns limit top_days output state_file w count w' :
  refresh limit top_days output state_file w = (inr count, w') ->
  exists items w1 doc new_ids (state : gmap string pyval),
    collect_items limit top_days w = (inr items, w1)
    /\ count = length items
    /\ (build_rss items w1).1 = inr doc
    /\ (update_state state_file items
          (write_feed output items w1).2).1 = inr new_ids
    /\ fs w' = <[state_file := JsonFile (Some 2%nat) true (PDict state)]>
                 (<[output := TextFile doc]> (fs w))
    /\ state !! "latest_ids" = Some (PList (item_id <$> items))
    /\ stdout w' = stdout w ++
         [match new_ids with
          | [] => "No new articles. Feed refreshed."
          | _ => "Found " +:+ pretty (length new_ids)
                   +:+ " new articles. Feed updated."
          end].
Proof.
  unfold refresh. run_step. intros Hrun.
  destruct (collect_items limit top_days w) as [[e0|items] w1] eqn:Hcollect;
    [done|].
  pose proof (collect_items_frame _ _ _ _ _ Hcollect) as [Hfs Hout].
  destruct (write_feed output items w1) as [[e1|[]] w2] eqn:Hfeed; [done|].
  pose proof (write_feed_inv _ _ _ _ _ Hfeed) as (Hout2 & _ & doc & Hdoc & Hfs2).
  destruct (update_state state_file items w2) as [[e2|new_ids] w3] eqn:Hupdate;
    [done|].
  assert (stdout w3 = stdout w2) as Hout3.
  { revert Hupdate. unfold update_state. run_step.
    destruct (load_state state_file w2) as [[e|st] w4] eqn:Hload; [done|].
    apply load_state_world in Hload as ->.
    destruct st; try done. cbn.
    destruct (py_set _); [done|]. destruct (filter_not_in _ _); [done|].
    unfold save_state. run_step. cbn. by intros [= _ <-]. }
  pose proof (update_state_inv _ _ _ _ _ Hupdate)
    as (state & previous & _ & _ & _ & Hfs3).
  exists items, w1, doc, new_ids,
    (<["updated_at" := PStr (isoformat (datetime_now (ticks w2)))]>
       (<["latest_ids" := PList (item_id <$> items)]> state)).
  split; [done|].
  assert (count = length items
          /\ stdout w' = stdout w3 ++
               [match new_ids with
                | [] => "No new articles. Feed refreshed."
                | _ => "Found " +:+ pretty (length new_ids)
                         +:+ " new articles. Feed updated."
                end]
          /\ fs w' = fs w3) as (-> & -> & ->).
  { destruct new_ids; cbn in Hrun; by injection Hrun as <- <-. }
  split; [done|]. split; [done|].
  split; [by rewrite Hfeed; cbn; rewrite Hupdate|].
  split; [by rewrite Hfs3, Hfs2, Hfs|].
  split; [by rewrite lookup_insert_ne, lookup_insert_eq|].
  by rewrite Hout3, Hout2, Hout.
Qed.

End RefreshCoverage.


Lemma refresh_undecodable_state_witness :
  let P := sample_platform sample_net in
  let w := with_state_file (TextFile "") in
  let items := from_inr [] (@collect_items P 20 30 w).1 in
  let w1 := (@collect_items P 20 30 w).2 in
  let doc := from_inr "" (@build_rss P items w1).1 in
  exists w',
    @refresh P 20 30 "feed.xml" "state.json" w = (inl JSONDecodeError, w')
    /\ fs w' = <["feed.xml" := TextFile doc]> (fs w)
    /\ fs w' !! "state.json" = Some (TextFile "")
    /\ stdout w' = stdout w.
Proof.
  intros P w items w1 doc.
  apply (@refresh_undecodable_state P 20 30 "feed.xml" "state.json" w items w1
           doc "").
  - vm_compute. reflexivity.
  - vm_compute. reflexivity.
  - discriminate.
  - reflexivity.
  - reflexivity.
Defined.

Lemma refresh_returns_witness :
  let P := sample_platform sample_net in
  let run := @refresh P 20 30 "feed.xml" "state.json" w0 in
  exists items w1 doc new_ids (state : gmap string pyval),
    @collect_items P 20 30 w0 = (inr items, w1)
    /\ 1%nat = length items
    /\ (@build_rss P items w1).1 = inr doc
    /\ (@update_state P "state.json" items
          (@write_feed P "feed.xml" items w1).2).1 = inr new_ids
    /\ fs run.2 = <["state.json" := JsonFile (Some 2%nat) true (PDict state)]>
                    (<["feed.xml" := TextFile doc]> (fs w0))
    /\ state !! "latest_ids" = Some (PList (item_id <$> items))
    /\ stdout run.2 = stdout w0 ++
         [match new_ids with
          | [] => "No new articles. Feed refreshed."
          | _ => "Found " +:+ pretty (length new_ids)
                   +:+ " new articles. Feed updated."
          end].
Proof.
  intros P run.
  apply (@refresh_returns P 20 30 "feed.xml" "state.json" w0 1%nat run.2).
  vm_compute. reflexivity.
Defined.

(** ** The daemon loop *)

Section DaemonCoverage.
Context `{platform}.

Lemma uniform_between (a b u : Q) :
  (a <= b)%Q -> (0 <= u <= 1)%Q ->
  (a <= a + (b - a) * u <= b)%Q.
Proof. intros Hab [Hu0 Hu1]. split; nra. Qed.

Lemma int_of_floor (x : Q) : (0 <= x)%Q -> int_of x = Qfloor x.
Proof.
  intros Hx. destruct x as [num den]. unfold int_of, Qfloor. cbn.
  apply Z.quot_div_nonneg; [|done].
  unfold Qle in Hx. cbn in Hx. lia.
Qed.

Lemma int_of_between (lo hi : Z) (x : Q) :
  0 <= lo -> (inject_Z lo <= x <= inject_Z hi)%Q -> lo <= int_of x <= hi.
Proof.
  intros Hlo [Hx1 Hx2].
  rewrite int_of_floor.
  - split.
    + rewrite <- (Qfloor_Z lo). by apply Qfloor_resp_le.
    + rewrite <- (Qfloor_Z hi). by apply Qfloor_resp_le.
  - eapply Qle_trans; [|exact Hx1].
    unfold Qle, inject_Z. cbn. lia.
Qed.

Lemma check_arguments_inv limit min_interval max_interval port :
  check_arguments limit min_interval max_interval port = inr tt ->
  0 < limit /\ 0 < min_interval <= max_interval /\ 0 < port.
Proof.
  unfold check_arguments.
  destruct (Z.leb_spec limit 0); [done|].
  destruct (Z.leb_spec min_interval 0); [done|].
  destruct (Z.leb_spec max_interval 0); [done|]. cbn [orb].
  destruct (Z.ltb_spec max_interval min_interval); [done|].
  destruct (Z.leb_spec port 0); [done|]. lia.
Qed.

(** X28: with arguments [main] accepts and random numbers between 0 and
    1, a pass of the daemon loop that completes ran one cycle and then
    slept once, for a time between the two intervals; the whole number of
    seconds it announces lies between them as well, and nothing else is
    printed or written after the cycle. *)
Theorem daemon_cycle_sleep limit top_days output state_file
    min_interval max_interval port w w' :
  check_arguments limit min_interval max_interval port = inr tt ->
  (forall n, (0 <= random_uniform01 n <= 1)%Q) ->
  daemon_cycle limit top_days output state_file min_interval max_interval w =
    (inr tt, w') ->
  exists count w1 sleep_for,
    refresh limit top_days output state_file w = (inr count, w1)
    /\ slept w' = slept w1 ++ [sleep_for]
    /\ (inject_Z min_interval <= sleep_for <= inject_Z max_interval)%Q
    /\ min_interval <= int_of sleep_for <= max_interval
    /\ stdout w' =
         stdout w1 ++ ["Sleeping for " +:+ pretty (int_of sleep_for) +:+ "s..."]
    /\ fs w' = fs w1 /\ requests w' = requests w1.
Proof.
  intros Hargs Hrand.
  apply check_arguments_inv in Hargs as (_ & [Hmin Hle] & _).
  unfold daemon_cycle, uniform. run_step.
  destruct (refresh limit top_days output state_file w) as [[e|count] w1];
    [done|].
  intros [= <-]. cbn.
  assert (inject_Z min_interval <=
            inject_Z min_interval +
              (inject_Z max_interval - inject_Z min_interval)
                * random_uniform01 (draws w1) <= inject_Z max_interval)%Q
    as Hbetween.
  { apply uniform_between; [|done]. by rewrite <- Zle_Qle. }
  eexists count, w1, _.
  split; [done|]. split; [done|]. split; [exact Hbetween|].
  split; [apply int_of_between; [lia | exact Hbetween]|]. done.
Qed.



End DaemonCoverage.

Lemma daemon_cycle_sleep_witness :
  let P := sample_platform sample_net in
  let run := @daemon_cycle P 20 30 "feed.xml" "state.json" 900 1200 w0 in
  exists count w1 sleep_for,
    @refresh P 20 30 "feed.xml" "state.json" w0 = (inr count, w1)
    /\ slept run.2 = slept w1 ++ [sleep_for]
    /\ (inject_Z 900 <= sleep_for <= inject_Z 1200)%Q
    /\ 900 <= int_of sleep_for <= 1200
    /\ stdout run.2 =
         stdout w1 ++ ["Sleeping for " +:+ pretty (int_of sleep_for) +:+ "s..."]
    /\ fs run.2 = fs w1 /\ requests run.2 = requests w1.
Proof.
  intros P run.
  apply (@daemon_cycle_sleep P 20 30 "feed.xml" "state.json" 900 1200 8000 w0
           run.2).
  - reflexivity.
  - intros n. split; vm_compute; discriminate.
  - vm_compute. reflexivity.
Defined.

